(** * The documentation scraper of SuperMCP-CLI (src/scraper.js)

    A shallow embedding of the class [DocumentationScraper]: its constructor,
    the sitemap resolver, the link resolver and filter, the per-page step
    [scrapePage] and the two crawl loops, together with the properties of the
    crawl that the specification states.

    JavaScript strings are embedded as [string]; a character stands for one
    code unit below 256.  The HTTP client (axios), the HTML/XML parser
    (cheerio), the Markdown converter (turndown), the WHATWG [URL] class and
    the clock are capabilities of the platform; they are fields of the record
    [World] further down. *)

From Stdlib Require Import ZArith Ascii String List Lia Bool Permutation.
From stdpp Require Import base gmap strings list.

Open Scope string_scope.
Open Scope list_scope.

(** ** JavaScript string primitives *)

Module JsString.

(** [\s] of a regular expression and the white space of [trim], restricted
    to code units below 256: TAB, LF, VT, FF, CR, SPACE and NBSP. *)
Definition is_ws (c : ascii) : bool :=
  let n := nat_of_ascii c in
  (Nat.eqb n 9 || Nat.eqb n 10 || Nat.eqb n 11 || Nat.eqb n 12
   || Nat.eqb n 13 || Nat.eqb n 32 || Nat.eqb n 160)%bool.

(** [s.startsWith(p)] *)
Definition startsWith (s p : string) : bool := String.prefix p s.

(** [s.includes(p)] *)
Definition includes (s p : string) : bool :=
  match String.index 0 p s with
  | Some _ => true
  | None => false
  end.

(** [!s] for a string: only the empty string is falsy. *)
Definition is_empty (s : string) : bool :=
  match s with
  | EmptyString => true
  | String _ _ => false
  end.

(** [a || b] on strings. *)
Definition or_else (a b : string) : string :=
  if is_empty a then b else a.

Fixpoint trim_start (s : string) : string :=
  match s with
  | EmptyString => EmptyString
  | String c r => if is_ws c then trim_start r else s
  end.

Fixpoint rev_onto (s acc : string) : string :=
  match s with
  | EmptyString => acc
  | String c r => rev_onto r (String c acc)
  end.

Definition reverse (s : string) : string := rev_onto s EmptyString.

(** [s.trim()] *)
Definition trim (s : string) : string :=
  reverse (trim_start (reverse (trim_start s))).

(** [s.split(sep)[0]] for a one-character separator: the text before the
    first occurrence of [sep], the whole string when there is none. *)
Fixpoint before_char (sep : ascii) (s : string) : string :=
  match s with
  | EmptyString => EmptyString
  | String c r =>
      if Ascii.eqb c sep then EmptyString else String c (before_char sep r)
  end.

(** [s.split(sep).slice(0, -1).join(sep)] for a one-character separator:
    the text before the last occurrence of [sep], the empty string when
    there is none. *)
Fixpoint before_last_char (sep : ascii) (s : string) : string :=
  match s with
  | EmptyString => EmptyString
  | String c r =>
      if includes r (String sep EmptyString)
      then String c (before_last_char sep r)
      else EmptyString
  end.

(** [s.split(/\s+/)]: the scan of String.prototype.split with a separator
    that matches a maximal run of white space.  [cur] is the piece being
    read and [inws] tells that the previous code unit was white space.
    The empty string gives one empty piece, because the separator does not
    match the empty string. *)
Fixpoint split_ws_from (s cur : string) (inws : bool) : list string :=
  match s with
  | EmptyString => [cur]
  | String c r =>
      if is_ws c
      then (if inws then split_ws_from r EmptyString true
            else cur :: split_ws_from r EmptyString true)
      else split_ws_from r (cur +:+ String c EmptyString) false
  end.

Definition split_ws (s : string) : list string :=
  split_ws_from s EmptyString false.

End JsString.

(** The number of white-space delimited tokens of a string: the maximal runs
    of code units that are not white space.  [inword] tells that the previous
    code unit belongs to a token. *)
Fixpoint count_tokens_from (s : string) (inword : bool) : nat :=
  match s with
  | EmptyString => 0
  | String c r =>
      if JsString.is_ws c then count_tokens_from r false
      else (if inword then 0 else 1) + count_tokens_from r true
  end.

Definition token_count (s : string) : nat := count_tokens_from s false.

(** ** Configuration: the constructor *)

(** The numeric option values a caller can pass: an integer or [NaN] (what
    [parseInt] gives on a malformed command-line value). *)
Inductive jsnum : Type :=
  | Num (z : Z)
  | NaN.

(** The [options] object; [None] is an absent property. *)
Record Options : Type := mkOptions {
  opt_maxPages : option jsnum;
  opt_timeout : option jsnum;
  opt_concurrency : option jsnum
}.

Record Config : Type := mkConfig {
  maxPages : Z;
  timeout : Z;
  concurrency : Z
}.

(** [v || d]: [undefined], [0] and [NaN] are falsy. *)
Definition num_or (v : option jsnum) (d : Z) : Z :=
  match v with
  | Some (Num z) => if Z.eqb z 0 then d else z
  | Some NaN => d
  | None => d
  end.

Definition constructor (options : Options) : Config :=
  {| maxPages := num_or (opt_maxPages options) 200;
     timeout := num_or (opt_timeout options) 5000;
     concurrency := num_or (opt_concurrency options) 5 |}.

(** ** Pages and results *)

Record Page : Type := mkPage {
  url : string;
  title : string;
  content : string;
  wordCount : nat;
  page_scrapedAt : string
}.

Record ScrapeResult : Type := mkResult {
  pageCount : nat;
  pages : list Page;
  scrapedAt : string;
  baseUrl : option string
}.

(** ** The platform *)

(** An element selected in a parsed page: [el.text()] and [el.html()]. *)
Record Element : Type := mkElement {
  el_text : string;
  el_html : option string
}.

(** What [scrapePage] reads of [cheerio.load(response.data)] once the
    boilerplate elements have been removed. *)
Record Document : Type := mkDocument {
  doc_first : string -> option Element; (* $(selector).first(), None when it is empty *)
  doc_html : string;                    (* $.html() *)
  doc_h1 : string;                      (* $('h1').first().text() *)
  doc_title : string;                   (* $('title').text() *)
  doc_anchors : list (option string)    (* the href of every a element, in document order *)
}.

(** What [tryFetchSitemap] reads of [cheerio.load(response.data, xmlMode)]. *)
Record XmlDocument : Type := mkXml {
  xml_url_locs : list string;     (* the text of every element of $('url > loc') *)
  xml_sitemap_locs : list string  (* the text of every element of $('sitemap > loc') *)
}.

(** [new URL(...)]: the properties the scraper reads. *)
Record ParsedUrl : Type := mkUrl {
  origin : string;
  pathname : string;
  href : string
}.

(** The capabilities the scraper calls.  [http_get n u t] is the outcome of
    the [n]-th request of the run, a GET of [u] with timeout [t]: the body, or
    [None] when the promise is rejected (transport error, status outside 2xx,
    timeout); the headers are those of [getHeaders], the same for every
    request of a scraper, and are left out.  The parsers give [None] when they
    throw.  [completion n] fixes the order in which the requests in flight
    after [n] requests complete, and [date_now n] is the clock after [n]
    requests. *)
Record World : Type := mkWorld {
  http_get : nat -> string -> Z -> option string;
  load_xml : string -> option XmlDocument;
  load_html : string -> option Document;
  turndown : string -> string;
  url_parse : string -> option ParsedUrl;
  url_parse_rel : string -> string -> option ParsedUrl;
  completion : nat -> list nat;
  date_now : nat -> string
}.

(** ** The state of one scraper object *)

(** [visited], [queue] and [pages] are the fields of the object.  [requests]
    is the list of the GET requests issued so far, oldest first: it belongs to
    the network, which answers a request by its number.  [enqueued] records
    the links that [scrapePage] has pushed on the queue since the crawl began;
    no step of the scraper reads it. *)
Record Engine : Type := mkEngine {
  visited : gset string;
  queue : list string;
  eng_pages : list Page;
  requests : list string;
  enqueued : list string
}.

Definition set_queue (q : list string) (e : Engine) : Engine :=
  {| visited := visited e; queue := q; eng_pages := eng_pages e;
     requests := requests e; enqueued := enqueued e |}.

Definition push_queue (u : string) (e : Engine) : Engine :=
  {| visited := visited e; queue := queue e ++ [u]; eng_pages := eng_pages e;
     requests := requests e; enqueued := enqueued e ++ [u] |}.

Definition push_page (p : Page) (e : Engine) : Engine :=
  {| visited := visited e; queue := queue e; eng_pages := eng_pages e ++ [p];
     requests := requests e; enqueued := enqueued e |}.

Definition add_visited (u : string) (e : Engine) : Engine :=
  {| visited := {[u]} ∪ visited e; queue := queue e; eng_pages := eng_pages e;
     requests := requests e; enqueued := enqueued e |}.

Definition log_request (u : string) (e : Engine) : Engine :=
  {| visited := visited e; queue := queue e; eng_pages := eng_pages e;
     requests := requests e ++ [u]; enqueued := enqueued e |}.

(** The first lines of [scrape]: the three fields are reset. *)
Definition reset (e : Engine) : Engine :=
  {| visited := ∅; queue := []; eng_pages := [];
     requests := requests e; enqueued := [] |}.

(** What a call gives back: a value, an exception that reaches the caller, or
    no answer within the fuel of the model. *)
Inductive outcome (A : Type) : Type :=
  | Returned (a : A)
  | Thrown
  | OutOfFuel.
Arguments Returned {A} a.
Arguments Thrown {A}.
Arguments OutOfFuel {A}.

(** ** Array primitives *)

(** [a.slice(0, end)] *)
Definition slice0 {A : Type} (stop : Z) (a : list A) : list A :=
  let len := Z.of_nat (length a) in
  let final := if (stop <? 0)%Z then Z.max (len + stop) 0 else Z.min stop len in
  firstn (Z.to_nat final) a.

(** [a.splice(0, count)]: the removed elements and what is left of [a]. *)
Definition splice0 {A : Type} (count : Z) (a : list A) : list A * list A :=
  let len := Z.of_nat (length a) in
  let n := Z.to_nat (Z.min (Z.max count 0) len) in
  (firstn n a, skipn n a).

(** ** Link resolver and filter *)

Definition excludePatterns : list string :=
  [ "/blog/"; "/changelog/"; ".pdf"; ".zip"; ".tar.gz"; "/downloads/";
    "/login"; "/signup"; "/api-reference/" ].

(** [shouldFollow(url, baseUrl, basePath)]; [None] is [null]. *)
Definition shouldFollow (e : Engine) (u : option string) (base : string) : bool :=
  match u with
  | None => false
  | Some s =>
      if JsString.is_empty s || negb (JsString.startsWith s base) then false
      else if bool_decide (s ∈ visited e) then false
      else negb (existsb (JsString.includes s) excludePatterns)
  end.

(** [resolveUrl(href, baseUrl, basePath)] *)
Definition resolveUrl (w : World) (h base basePath : string) : option string :=
  if JsString.startsWith h "http" then Some (JsString.before_char "#" h)
  else if JsString.startsWith h "/" then Some (base +:+ JsString.before_char "#" h)
  else match url_parse_rel w h (base +:+ basePath) with
       | Some p => Some (JsString.before_char "#" (href p))
       | None => None
       end.

(** [getBasePath(url)] *)
Definition getBasePath (w : World) (u : string) : string :=
  match url_parse w u with
  | Some p => JsString.before_last_char "/" (pathname p)
  | None => EmptyString
  end.

(** ** Sitemap resolver *)

(** The candidate locations, in the order of the array literal [sitemapUrls]
    of [tryFetchSitemap]. *)
Definition sitemapUrls (baseUrl : string) (parsed : ParsedUrl) : list string :=
  [ baseUrl +:+ "/sitemap.xml";
    baseUrl +:+ "/sitemap_index.xml";
    baseUrl +:+ "/sitemap.xml";
    origin parsed +:+ "/sitemap.xml";
    origin parsed +:+ "/sitemap_index.xml" ].

(** One [$(...).each] of the resolver: every text is trimmed and kept when it
    is not empty. *)
Definition collect_locs (texts : list string) : list string :=
  List.filter (fun u => negb (JsString.is_empty u)) (List.map JsString.trim texts).

(** The [for] loop of [tryFetchSitemap] over the candidates that are left. *)
Fixpoint probe_sitemaps (w : World) (candidates : list string) (e : Engine)
  : list string * Engine :=
  match candidates with
  | [] => ([], e)
  | sitemapUrl :: rest =>
      let e1 := log_request sitemapUrl e in
      match http_get w (length (requests e)) sitemapUrl 3000 with
      | None => probe_sitemaps w rest e1
      | Some data =>
          match load_xml w data with
          | None => probe_sitemaps w rest e1
          | Some doc =>
              let urls := collect_locs (xml_url_locs doc)
                          ++ collect_locs (xml_sitemap_locs doc) in
              if (0 <? length urls)%nat then (urls, e1)
              else probe_sitemaps w rest e1
          end
      end
  end.

Definition tryFetchSitemap (w : World) (baseUrl : string) (e : Engine)
  : outcome (list string * Engine) :=
  match url_parse w baseUrl with
  | None => Thrown
  | Some parsed => Returned (probe_sitemaps w (sitemapUrls baseUrl parsed) e)
  end.

(** ** Content extraction and [scrapePage] *)

(** The one-character string that holds a double quote. *)
Definition dquote : string := String (ascii_of_nat 34) EmptyString.

Definition contentSelectors : list string :=
  [ "main"; "article"; "[role=" +:+ dquote +:+ "main" +:+ dquote +:+ "]";
    ".content"; ".documentation"; ".docs-content"; "#content"; "body" ].

(** The loop over [contentSelectors]: the first selector whose first match
    has more than 100 characters of trimmed text. *)
Fixpoint select_content (doc : Document) (selectors : list string)
  : option Element :=
  match selectors with
  | [] => None
  | selector :: rest =>
      match doc_first doc selector with
      | Some el =>
          if (100 <? String.length (JsString.trim (el_text el)))%nat
          then Some el
          else select_content doc rest
      | None => select_content doc rest
      end
  end.

(** The Markdown of a parsed page: [turndown(html || '')]. *)
Definition markdown_of (w : World) (doc : Document) : string :=
  let html :=
    match select_content doc contentSelectors with
    | Some el => el_html el
    | None => Some (doc_html doc)
    end in
  turndown w (default EmptyString html).

(** The object pushed on [this.pages]. *)
Definition make_page (w : World) (u : string) (doc : Document) (e : Engine)
  : Page :=
  let markdown := markdown_of w doc in
  let t := JsString.or_else (doc_h1 doc) (JsString.or_else (doc_title doc) u) in
  {| url := u;
     title := JsString.trim t;
     content := markdown;
     wordCount := length (JsString.split_ws markdown);
     page_scrapedAt := date_now w (length (requests e)) |}.

(** The callback of [$('a').each] in [scrapePage]. *)
Definition follow_link (w : World) (base basePath : string)
  (e : Engine) (h : option string) : Engine :=
  match h with
  | None => e
  | Some h =>
      if JsString.is_empty h then e
      else
        let fullUrl := resolveUrl w h base basePath in
        if shouldFollow e fullUrl base
        then match fullUrl with Some u => push_queue u e | None => e end
        else e
  end.

(** A request in flight: the URL and the outcome of its GET. *)
Definition inflight : Type := (string * option string)%type.

(** [scrapePage] up to its [await]: the test and the update of [visited],
    and the request.  A URL that was visited returns at once. *)
Definition scrapePage_start (w : World) (cfg : Config) (u : string) (e : Engine)
  : Engine * option inflight :=
  if bool_decide (u ∈ visited e) then (e, None)
  else
    let response := http_get w (length (requests e)) u (timeout cfg) in
    (log_request u (add_visited u e), Some (u, response)).

(** [scrapePage] from its [await] on: the body of the [try] when the request
    succeeded, nothing when it was rejected or when parsing threw. *)
Definition scrapePage_resume (w : World) (cfg : Config) (base basePath : string)
  (e : Engine) (t : inflight) : Engine :=
  match snd t with
  | None => e
  | Some data =>
      match load_html w data with
      | None => e
      | Some doc =>
          let e1 := push_page (make_page w (fst t) doc e) e in
          if (Z.of_nat (length (eng_pages e1)) <? maxPages cfg)%Z
          then fold_left (follow_link w base basePath) (doc_anchors doc) e1
          else e1
      end
  end.

(** ** Batches *)

(** [batch.map(url => this.scrapePage(...))]: the calls run one after the
    other up to their [await]. *)
Fixpoint dispatch (w : World) (cfg : Config) (batch : list string) (e : Engine)
  : Engine * list inflight :=
  match batch with
  | [] => (e, [])
  | u :: rest =>
      let (e1, t) := scrapePage_start w cfg u e in
      let (e2, ts) := dispatch w cfg rest e1 in
      (e2, match t with Some t => t :: ts | None => ts end)
  end.

Fixpoint insert_at {A : Type} (n : nat) (x : A) (l : list A) : list A :=
  match n, l with
  | O, _ => x :: l
  | S m, y :: r => y :: insert_at m x r
  | S m, [] => [x]
  end.

(** The order in which requests in flight complete: every request is put at
    the place its choice names among those dispatched after it. *)
Fixpoint completion_order {A : Type} (choices : list nat) (l : list A) : list A :=
  match l with
  | [] => []
  | x :: r => insert_at (hd O choices) x (completion_order (tl choices) r)
  end.

(** [await Promise.all(...)]: the calls resume one at a time, in the order in
    which their requests complete. *)
Definition settle (w : World) (cfg : Config) (base basePath : string)
  (ts : list inflight) (e : Engine) : Engine :=
  fold_left (scrapePage_resume w cfg base basePath)
            (completion_order (completion w (length (requests e))) ts) e.

(** One turn of the [while] loop. *)
Definition run_batch (w : World) (cfg : Config) (base basePath : string)
  (e : Engine) : Engine :=
  let (batch, rest) := splice0 (concurrency cfg) (queue e) in
  let (e1, ts) := dispatch w cfg batch (set_queue rest e) in
  settle w cfg base basePath ts e1.

(** The [while] loop of both crawls; [None] when the fuel runs out first. *)
Fixpoint crawl_loop (fuel : nat) (w : World) (cfg : Config)
  (base basePath : string) (e : Engine) : option Engine :=
  match fuel with
  | O => None
  | S fuel' =>
      if (0 <? length (queue e))%nat
         && (Z.of_nat (length (eng_pages e)) <? maxPages cfg)%Z
      then crawl_loop fuel' w cfg base basePath (run_batch w cfg base basePath e)
      else Some e
  end.

(** ** The two crawls and [scrape] *)

Definition result_of (w : World) (e : Engine) (b : option string) : ScrapeResult :=
  {| pageCount := length (eng_pages e);
     pages := eng_pages e;
     scrapedAt := date_now w (length (requests e));
     baseUrl := b |}.

(** [sitemapUrls[0]] when it is truthy. *)
Definition first_truthy (l : list string) : option string :=
  match l with
  | u :: _ => if JsString.is_empty u then None else Some u
  | [] => None
  end.

(** The seed of the sitemap crawl: the entries that pass [shouldFollow],
    cut to the first [maxPages]. *)
Definition sitemap_seed (cfg : Config) (e : Engine) (base : string)
  (urls : list string) : list string :=
  slice0 (maxPages cfg)
         (List.filter (fun u => shouldFollow e (Some u) base) urls).

Definition scrapeFromSitemap (fuel : nat) (w : World) (cfg : Config)
  (urls : list string) (e : Engine) : outcome (ScrapeResult * Engine) :=
  let scope :=
    match first_truthy urls with
    | Some u =>
        match url_parse w u with
        | Some p => Some (origin p, getBasePath w u)
        | None => None
        end
    | None => Some (EmptyString, EmptyString)
    end in
  match scope with
  | None => Thrown
  | Some (base, basePath) =>
      let toScrape := sitemap_seed cfg e base urls in
      match crawl_loop fuel w cfg base basePath (set_queue toScrape e) with
      | None => OutOfFuel
      | Some e' =>
          let b := if JsString.is_empty base then hd_error urls else Some base in
          Returned (result_of w e' b, e')
      end
  end.

Definition recursiveCrawl (fuel : nat) (w : World) (cfg : Config)
  (startUrl : string) (e : Engine) : outcome (ScrapeResult * Engine) :=
  let e0 := set_queue (queue e ++ [startUrl]) e in
  match url_parse w startUrl with
  | None => Thrown
  | Some parsed =>
      let base := origin parsed in
      let basePath := getBasePath w startUrl in
      match crawl_loop fuel w cfg base basePath e0 with
      | None => OutOfFuel
      | Some e' => Returned (result_of w e' (Some startUrl), e')
      end
  end.

(** [scrape(startUrl)] on a scraper in state [e]: the result and the state
    the scraper is left in. *)
Definition scrape (fuel : nat) (w : World) (cfg : Config) (startUrl : string)
  (e : Engine) : outcome (ScrapeResult * Engine) :=
  match tryFetchSitemap w startUrl (reset e) with
  | Thrown => Thrown
  | OutOfFuel => OutOfFuel
  | Returned (sitemapPages, e1) =>
      if (0 <? length sitemapPages)%nat
      then scrapeFromSitemap fuel w cfg sitemapPages e1
      else recursiveCrawl fuel w cfg startUrl e1
  end.

(** ** Sample worlds

    Small webs on which the scraper is run further down.  The body of a
    response is the requested URL itself; the parsers look it up in a table.
    URLs are parsed in the simplest way: the origin ends before the third
    slash, the path begins there. *)

Module Sample.

Fixpoint assoc {B : Type} (k : string) (l : list (string * B)) : option B :=
  match l with
  | [] => None
  | (k', v) :: r => if String.eqb k k' then Some v else assoc k r
  end.

(** The text before the [n]-th slash and the text from it on. *)
Fixpoint cut_at_slash (n : nat) (s : string) : string * string :=
  match s with
  | EmptyString => (EmptyString, EmptyString)
  | String c r =>
      if Ascii.eqb c "/" then
        match n with
        | O => (EmptyString, s)
        | S m => let (a, b) := cut_at_slash m r in (String c a, b)
        end
      else let (a, b) := cut_at_slash n r in (String c a, b)
  end.

Definition parse (u : string) : option ParsedUrl :=
  if JsString.startsWith u "http" then
    let (o, p) := cut_at_slash 2 u in
    Some {| origin := o;
            pathname := if JsString.is_empty p then "/" else p;
            href := if JsString.is_empty p then u +:+ "/" else u |}
  else None.

Definition parse_rel (h base : string) : option ParsedUrl :=
  parse (JsString.before_last_char "/" base +:+ "/" +:+ h).

(** A page of a sample web: its first heading, its Markdown and the [href]
    attributes of its links. *)
Record entry : Type := mkEntry {
  heading : string;
  text : string;
  links : list string
}.

Definition document_of (x : entry) : Document :=
  {| doc_first := fun _ => None;
     doc_html := text x;
     doc_h1 := heading x;
     doc_title := EmptyString;
     doc_anchors := List.map Some (links x) |}.

(** The world with the pages [web] and the sitemaps [maps]; request [n] for
    [u] is rejected when [down n u] holds, and requests complete in the
    order given by [order]. *)
Definition world (web : list (string * entry))
  (maps : list (string * list string))
  (down : nat -> string -> bool) (order : nat -> list nat) : World :=
  {| http_get := fun n u _ =>
       if down n u then None
       else match assoc u web, assoc u maps with
            | None, None => None
            | _, _ => Some u
            end;
     load_xml := fun body =>
       match assoc body maps with
       | Some locs => Some {| xml_url_locs := locs; xml_sitemap_locs := [] |}
       | None => Some {| xml_url_locs := []; xml_sitemap_locs := [] |}
       end;
     load_html := fun body => option_map document_of (assoc body web);
     turndown := fun html => html;
     url_parse := parse;
     url_parse_rel := parse_rel;
     completion := order;
     date_now := fun _ => "2024-01-01T00:00:00.000Z" |}.

Definition never (n : nat) (u : string) : bool := false.
Definition always (n : nat) (u : string) : bool := true.
Definition in_order (n : nat) : list nat := [].

Definition fresh : Engine :=
  {| visited := ∅; queue := []; eng_pages := []; requests := [];
     enqueued := [] |}.

Definition config (m c : Z) : Config :=
  {| maxPages := m; timeout := 5000; concurrency := c |}.

(** A site without a sitemap: the start page links to a page of the docs
    and to a post of the blog. *)
Definition docs_web : list (string * entry) :=
  [ ("https://example.com/docs/a",
     {| heading := "A"; text := "page a";
        links := ["/docs/b"; "/blog/post"] |});
    ("https://example.com/docs/b",
     {| heading := "B"; text := "page b"; links := [] |});
    ("https://example.com/blog/post",
     {| heading := "Post"; text := "a post"; links := [] |}) ].

Definition docs_world : World := world docs_web [] never in_order.

(** A site whose start page links to four more pages. *)
Definition wide_web : list (string * entry) :=
  [ ("https://example.com/docs/a",
     {| heading := "A"; text := "page a";
        links := ["/docs/b"; "/docs/c"; "/docs/d"; "/docs/e"] |});
    ("https://example.com/docs/b",
     {| heading := "B"; text := "page b"; links := [] |});
    ("https://example.com/docs/c",
     {| heading := "C"; text := "page c"; links := [] |});
    ("https://example.com/docs/d",
     {| heading := "D"; text := "page d"; links := [] |});
    ("https://example.com/docs/e",
     {| heading := "E"; text := "page e"; links := [] |}) ].

Definition wide_world : World := world wide_web [] never in_order.

(** A site with a sitemap that lists one page; that page links to a second
    page, which the sitemap does not list. *)
Definition mapped_web : list (string * entry) :=
  [ ("https://example.com/docs/a",
     {| heading := "A"; text := "page a"; links := ["/docs/b"] |});
    ("https://example.com/docs/b",
     {| heading := "B"; text := "page b"; links := [] |}) ].

Definition mapped_maps : list (string * list string) :=
  [ ("https://example.com/docs/sitemap.xml", ["https://example.com/docs/a"]) ].

Definition mapped_world : World := world mapped_web mapped_maps never in_order.

(** The same site when the first two requests of a run are rejected. *)
Definition first_two (n : nat) (u : string) : bool := (n <? 2)%nat.

Definition two_maps : list (string * list string) :=
  [ ("https://example.com/docs/sitemap.xml", ["https://example.com/docs/a"]);
    ("https://example.com/sitemap.xml", ["https://example.com/docs/b"]) ].

Definition flaky_world : World := world mapped_web two_maps first_two in_order.

(** A site whose only page has an empty body. *)
Definition empty_web : list (string * entry) :=
  [ ("https://example.com/docs/a",
     {| heading := "A"; text := EmptyString; links := [] |}) ].

Definition empty_world : World := world empty_web [] never in_order.

(** A host that answers no request. *)
Definition dead_world : World := world docs_web [] always in_order.

(** A site whose start page links twice to the same page. *)
Definition twin_web : list (string * entry) :=
  [ ("https://example.com/docs/a",
     {| heading := "A"; text := "page a";
        links := ["/docs/b"; "/docs/b"; "/docs/c"] |});
    ("https://example.com/docs/b",
     {| heading := "B"; text := "page b"; links := ["/docs/c"] |});
    ("https://example.com/docs/c",
     {| heading := "C"; text := "page c"; links := [] |}) ].

(** In every batch the request dispatched last completes first. *)
Definition last_first (n : nat) : list nat := [2; 1].

Definition twin_world : World := world twin_web [] never last_first.

(** The site of [docs_web] when the page of the docs that the start page
    links to does not answer. *)
Definition only_b (n : nat) (u : string) : bool :=
  String.eqb u "https://example.com/docs/b".

Definition broken_world : World := world docs_web [] only_b in_order.

End Sample.

(** ** Definitions used to state the properties *)

(** The falsy values a numeric option can take: absent, [0] and [NaN]. *)
Inductive falsy_value : Type :=
  | FalsyAbsent
  | FalsyZero
  | FalsyNaN.

Definition falsy_option (f : falsy_value) : option jsnum :=
  match f with
  | FalsyAbsent => None
  | FalsyZero => Some (Num 0)
  | FalsyNaN => Some NaN
  end.

(** Whether a string begins with a code unit that is not white space. *)
Definition starts_with_token (s : string) : bool :=
  match s with
  | EmptyString => false
  | String c _ => negb (JsString.is_ws c)
  end.

(** Whether the text read so far ends in white space, [b] being the answer
    for what came before [s]. *)
Fixpoint ends_ws_from (s : string) (b : bool) : bool :=
  match s with
  | EmptyString => b
  | String c r => ends_ws_from r (JsString.is_ws c)
  end.

Definition ends_with_ws (s : string) : bool := ends_ws_from s false.

(** The candidate locations as the specification lists them. *)
Definition listed_candidates (baseUrl : string) (parsed : ParsedUrl) : list string :=
  [ baseUrl +:+ "/sitemap.xml";
    baseUrl +:+ "/sitemap_index.xml";
    origin parsed +:+ "/sitemap.xml";
    origin parsed +:+ "/sitemap_index.xml" ].

(** The part of the in-scope predicate that does not depend on the state of
    the crawl: not empty, under the origin, and free of every excluded
    pattern. *)
Definition in_scope (base u : string) : Prop :=
  u <> EmptyString /\ JsString.startsWith u base = true /\
  forall pat, In pat excludePatterns -> JsString.includes u pat = false.

(** The URLs that the scraper has to parse for a crawl to begin: the start
    URL and, in sitemap mode, the first entry of the sitemap. *)
Definition scope_parses (w : World) (sitemapPages : list string) : Prop :=
  match first_truthy sitemapPages with
  | Some u => url_parse w u <> None
  | None => True
  end.

(** The answer of one candidate: the locations it lists, none when the request
    is rejected or the body does not parse. *)
Definition candidate_answer (w : World) (n : nat) (c : string) : list string :=
  match http_get w n c 3000 with
  | None => []
  | Some data =>
      match load_xml w data with
      | None => []
      | Some doc =>
          collect_locs (xml_url_locs doc) ++ collect_locs (xml_sitemap_locs doc)
      end
  end.

(** The state after the links [l] have been pushed on the queue. *)
Definition push_all (l : list string) (e : Engine) : Engine :=
  {| visited := visited e; queue := queue e ++ l; eng_pages := eng_pages e;
     requests := requests e; enqueued := enqueued e ++ l |}.

(** The state after the pages [ps] have been appended and the links [l]
    pushed on the queue. *)
Definition grow (ps : list Page) (l : list string) (e : Engine) : Engine :=
  {| visited := visited e; queue := queue e ++ l; eng_pages := eng_pages e ++ ps;
     requests := requests e; enqueued := enqueued e ++ l |}.

(** The test of the [while] loop. *)
Definition loop_test (cfg : Config) (e : Engine) : bool :=
  (0 <? length (queue e))%nat
  && (Z.of_nat (length (eng_pages e)) <? maxPages cfg)%Z.

(** ** Request headers *)

(** The two options of the constructor that are not numbers: [authHeader] and
    [cookies]; [None] is an absent property. *)
Record Credentials : Type := mkCredentials {
  authHeader : option string;
  cookies : option string
}.

(** The canonical form of a code unit under the flag [i] of a regular
    expression: the letters a to z are taken to upper case, and no code unit
    from 128 on is equal to a letter. *)
Definition upper (c : ascii) : ascii :=
  let n := nat_of_ascii c in
  if ((97 <=? n) && (n <=? 122))%nat then ascii_of_nat (n - 32) else c.

(** What follows a match of [p] at the start of [s], letters compared without
    their case; [None] when [s] does not begin with [p]. *)
Fixpoint strip_prefix_ci (p s : string) : option string :=
  match p with
  | EmptyString => Some s
  | String a p' =>
      match s with
      | EmptyString => None
      | String b s' =>
          if Ascii.eqb (upper a) (upper b) then strip_prefix_ci p' s' else None
      end
  end.

(** [s.replace(/^Authorization:\s*/i, '')] *)
Definition strip_authorization (s : string) : string :=
  match strip_prefix_ci "Authorization:" s with
  | Some r => JsString.trim_start r
  | None => s
  end.

(** [getHeaders()]: the properties of the object, in the order in which they
    are set. *)
Definition getHeaders (c : Credentials) : list (string * string) :=
  [("User-Agent", "Super-MCP-Bot/1.0")]
  ++ match authHeader c with
     | Some a =>
         if JsString.is_empty a then []
         else [("Authorization", JsString.trim (strip_authorization a))]
     | None => []
     end
  ++ match cookies c with
     | Some k => if JsString.is_empty k then [] else [("Cookie", k)]
     | None => []
     end.

(** Whether the code unit [c] occurs in [s]. *)
Fixpoint has_char (c : ascii) (s : string) : bool :=
  match s with
  | EmptyString => false
  | String b r => Ascii.eqb b c || has_char c r
  end.

(** Whether every code unit of [s] is white space. *)
Fixpoint all_ws (s : string) : bool :=
  match s with
  | EmptyString => true
  | String c r => JsString.is_ws c && all_ws r
  end.

(** Whether a selector qualifies in the loop of [scrapePage]: its first match
    exists and has more than 100 characters of trimmed text. *)
Definition qualifies (doc : Document) (selector : string) : bool :=
  match doc_first doc selector with
  | Some el => (100 <? String.length (JsString.trim (el_text el)))%nat
  | None => false
  end.

(** ** More samples *)

Module Fixture.

(** A document whose [main] region is too short to qualify. *)
Definition short_main : Document :=
  {| doc_first := fun s =>
       if String.eqb s "main"
       then Some {| el_text := "short"; el_html := Some "<p>short</p>" |}
       else None;
     doc_html := "<html>whole</html>";
     doc_h1 := "A";
     doc_title := "A";
     doc_anchors := [] |}.

(** A document whose first heading is blank. *)
Definition blank_heading : Document :=
  {| doc_first := fun _ => None;
     doc_html := "text";
     doc_h1 := "  ";
     doc_title := "Guide";
     doc_anchors := [] |}.

End Fixture.

(** ** Merging sources (commands/create.js and the add-sources command)

    The pages of the loaders carry one more property, [source]; the functions
    below do not read it, and a page is moved as a whole. *)

(** The key under which a page is remembered: [p.url + '|' + p.title]. *)
Definition page_key (p : Page) : string := url p +:+ "|" +:+ title p.

(** The loop over the incoming pages: [seen] is the set of keys, [merged] the
    array that grows. *)
Fixpoint merge_loop (incoming : list Page) (seen : gset string) (merged : list Page)
  : gset string * list Page :=
  match incoming with
  | [] => (seen, merged)
  | p :: rest =>
      let key := page_key p in
      if bool_decide (key ∈ seen) then merge_loop rest seen merged
      else merge_loop rest ({[key]} ∪ seen) (merged ++ [p])
  end.

(** [mergePages(existing, incoming)] *)
Definition mergePages (existing incoming : list Page) : list Page :=
  snd (merge_loop incoming (list_to_set (List.map page_key existing)) existing).

(** What [mergeDocsData] reads of a source: its pages, its base URL and its
    kind; [None] is an absent property. *)
Record SourceData : Type := mkSource {
  src_pages : option (list Page);
  src_baseUrl : option string;
  src_source : option string
}.

Record MergedDocs : Type := mkMerged {
  md_pageCount : nat;
  md_pages : list Page;
  md_scrapedAt : string;
  md_baseUrl : string;
  md_sources : list string;
  md_totalWords : nat
}.

(** [v || d] for a string that may be absent. *)
Definition str_or (v : option string) (d : string) : string :=
  match v with
  | Some s => JsString.or_else s d
  | None => d
  end.

(** The outer loop of [mergeDocsData] over the sources. *)
Fixpoint merge_sources (sources : list SourceData) (seen : gset string)
  (pages : list Page) : gset string * list Page :=
  match sources with
  | [] => (seen, pages)
  | data :: rest =>
      let (seen', pages') := merge_loop (default [] (src_pages data)) seen pages in
      merge_sources rest seen' pages'
  end.

(** [mergeDocsData(sources)]; [now] is the clock. *)
Definition mergeDocsData (now : string) (sources : list SourceData) : MergedDocs :=
  let pages := snd (merge_sources sources ∅ []) in
  {| md_pageCount := length pages;
     md_pages := pages;
     md_scrapedAt := now;
     md_baseUrl :=
       match sources with
       | first :: _ => str_or (src_baseUrl first) "multiple"
       | [] => "multiple"
       end;
     md_sources := List.map (fun s => str_or (src_source s) "docs") sources;
     md_totalWords := fold_left (fun s p => s + wordCount p) pages 0 |}.

(** ** The GraphQL loader (loaders/graphql.js) *)

(** The one-character string that holds a line feed. *)
Definition lf : string := String (ascii_of_nat 10) EmptyString.

(** [s.split('\n')]; [cur] is the line being read. *)
Fixpoint split_lines_from (s cur : string) : list string :=
  match s with
  | EmptyString => [cur]
  | String c r =>
      if Ascii.eqb c (ascii_of_nat 10) then cur :: split_lines_from r EmptyString
      else split_lines_from r (cur +:+ String c EmptyString)
  end.

Definition split_lines (s : string) : list string := split_lines_from s EmptyString.

Definition blockTypes : list string :=
  [ "type "; "interface "; "enum "; "input "; "scalar " ].

(** [[A-Za-z0-9_]] *)
Definition is_ident (c : ascii) : bool :=
  let n := nat_of_ascii c in
  ((65 <=? n) && (n <=? 90) || (97 <=? n) && (n <=? 122)
   || (48 <=? n) && (n <=? 57) || (n =? 95))%nat.

(** The longest run of identifier characters at the start of [s]. *)
Fixpoint take_ident (s : string) : string :=
  match s with
  | EmptyString => EmptyString
  | String c r => if is_ident c then String c (take_ident r) else EmptyString
  end.

(** What follows [p] at the start of [s]; [None] when [s] does not begin with
    [p]. *)
Fixpoint strip_prefix (p s : string) : option string :=
  match p with
  | EmptyString => Some s
  | String a p' =>
      match s with
      | EmptyString => None
      | String b s' => if Ascii.eqb a b then strip_prefix p' s' else None
      end
  end.

(** The group of [line.match(new RegExp(prefix + '([A-Za-z0-9_]+)'))]: the
    identifier after the leftmost occurrence of [prefix] that an identifier
    character follows.  The prefixes of [blockTypes] are not empty and hold
    no character that is special in a regular expression. *)
Fixpoint match_name (prefix line : string) : option string :=
  match line with
  | EmptyString => None
  | String _ r =>
      match strip_prefix prefix line with
      | Some after =>
          if JsString.is_empty (take_ident after) then match_name prefix r
          else Some (take_ident after)
      | None => match_name prefix r
      end
  end.

(** The first prefix of [blockTypes] that the trimmed line starts with. *)
Definition block_prefix (line : string) : option string :=
  List.find (fun p => JsString.startsWith (JsString.trim line) p) blockTypes.

(** [createPage(name, content)]; [now] is the clock. *)
Definition createPage (now : string) (name body : string) : Page :=
  {| url := "schema";
     title := name;
     content := body;
     wordCount := length (JsString.split_ws body);
     page_scrapedAt := now |}.

(** The loop over the lines: the pages pushed so far, the current block and
    its name.  [clock n] is the time when [n] pages have been made. *)
Fixpoint graphql_loop (clock : nat -> string) (lines : list string)
  (pages : list Page) (currentBlock currentName : string)
  : list Page * string * string :=
  match lines with
  | [] => (pages, currentBlock, currentName)
  | line :: rest =>
      match block_prefix line with
      | Some prefix =>
          let pages' :=
            if JsString.is_empty currentBlock then pages
            else pages ++ [createPage (clock (length pages)) currentName currentBlock] in
          let name := default "Unknown" (match_name prefix line) in
          graphql_loop clock rest pages' (line +:+ lf) name
      | None =>
          graphql_loop clock rest pages (currentBlock +:+ line +:+ lf) currentName
      end
  end.

(** The pages when the loop and the push that follows it are done. *)
Definition graphql_blocks (clock : nat -> string) (schemaStr : string) : list Page :=
  let '(pages, currentBlock, currentName) :=
    graphql_loop clock (split_lines schemaStr) [] EmptyString EmptyString in
  if JsString.is_empty currentBlock then pages
  else pages ++ [createPage (clock (length pages)) currentName currentBlock].

(** What a loader returns. *)
Record LoaderResult : Type := mkLoaded {
  lr_pageCount : nat;
  lr_pages : list Page;
  lr_scrapedAt : string;
  lr_baseUrl : string;
  lr_source : string
}.

(** [loadGraphQL(source)] once the schema has been read: [schemaStr] is the
    body of the response or the content of the file. *)
Definition graphql_result (clock : nat -> string) (source schemaStr : string)
  : LoaderResult :=
  let blocks := graphql_blocks clock schemaStr in
  let pages :=
    if (length blocks =? 0)%nat && negb (JsString.is_empty (JsString.trim schemaStr))
    then blocks ++ [ {| url := source;
                        title := "GraphQL Schema";
                        content := schemaStr;
                        wordCount := length (JsString.split_ws schemaStr);
                        page_scrapedAt := clock (length blocks) |} ]
    else blocks in
  {| lr_pageCount := length pages;
     lr_pages := pages;
     lr_scrapedAt := clock (length pages);
     lr_baseUrl := source;
     lr_source := "graphql" |}.

(** [loadGraphQL(source)]: a source that begins with [http] is fetched, any
    other is read as a file; a failure of either reaches the caller. *)
Definition loadGraphQL (fetch readFile : string -> option string)
  (clock : nat -> string) (source : string) : outcome LoaderResult :=
  let body := if JsString.startsWith source "http" then fetch source
              else readFile source in
  match body with
  | Some schemaStr => Returned (graphql_result clock source schemaStr)
  | None => Thrown
  end.

(** The strings of a list, one after the other. *)
Definition join_all (l : list string) : string :=
  fold_right String.append EmptyString l.

(** Whether a line opens a block: its trimmed text starts with a prefix of
    [blockTypes]. *)
Definition is_block_start (line : string) : bool :=
  match block_prefix line with
  | Some _ => true
  | None => false
  end.

(** The number of lines of a list that open a block. *)
Definition count_block_starts (lines : list string) : nat :=
  length (List.filter is_block_start lines).

(** What the pages of the loader have in common: the URL [schema], a content
    that ends in a line feed, and the word count of that content. *)
Definition block_page (p : Page) : Prop :=
  url p = "schema" /\ (exists x, content p = x +:+ lf) /\
  wordCount p = length (JsString.split_ws (content p)).

(** ** The scraper of the create command (commands/create.js)

    [parsed] is [parseInt(maxPages, 10)] and [urls] the length of [urlList]:
    the budget of the command is [parsed || 200], and the scraper is built
    with that budget divided by the number of URLs, rounded down. *)
Definition create_options (parsed : jsnum) (urls : nat) : Options :=
  let maxPagesNum := num_or (Some parsed) 200 in
  {| opt_maxPages := Some (Num (maxPagesNum / Z.max (Z.of_nat urls) 1));
     opt_timeout := Some (Num 5000);
     opt_concurrency := Some (Num 5) |}.

Definition create_scraper (parsed : jsnum) (urls : nat) : Config :=
  constructor (create_options parsed urls).

(** ** The codebase loader (loaders/codebase.js) *)

Definition EXTENSIONS : list string :=
  [ ".ts"; ".tsx"; ".js"; ".jsx"; ".py"; ".go"; ".rs"; ".java"; ".rb"; ".php" ].

Definition IGNORE : list string :=
  [ "node_modules"; ".git"; "dist"; "build"; "__pycache__"; ".next"; "vendor" ].

(** What the loader sees of the file system: a file with what [readFile]
    gives, a directory with what [readdir] gives; [None] is a rejected
    promise.  An entry that is neither is not listed. *)
#[local] Unset Elimination Schemes.
Inductive FsEntry : Type :=
  | FsFile (name : string) (data : option string)
  | FsDir (name : string) (entries : option (list FsEntry)).
#[local] Set Elimination Schemes.

(** Induction over a tree of entries: a property that holds of every file,
    and of a directory when it holds of its entries, holds of every entry. *)
Fixpoint FsEntry_ind (P : FsEntry -> Prop)
  (Hfile : forall name data, P (FsFile name data))
  (Hdir : forall name entries,
      Forall P (default [] entries) -> P (FsDir name entries))
  (ent : FsEntry) : P ent :=
  match ent with
  | FsFile name data => Hfile name data
  | FsDir name entries =>
      Hdir name entries
        match entries as o return Forall P (default [] o) with
        | Some l =>
            (fix all (l : list FsEntry) : Forall P l :=
               match l with
               | [] => @List.Forall_nil FsEntry P
               | e :: rest =>
                   @List.Forall_cons FsEntry P e rest
                     (FsEntry_ind P Hfile Hdir e) (all rest)
               end) l
        | None => @List.Forall_nil FsEntry P
        end
  end.

Definition entry_name (ent : FsEntry) : string :=
  match ent with
  | FsFile name _ => name
  | FsDir name _ => name
  end.

(** The functions of the module [path] that the loader calls. *)
Record PathLib : Type := mkPathLib {
  path_join : string -> string -> string;
  path_relative : string -> string -> string;
  path_extname : string -> string;
  path_resolve : string -> string
}.

(** The options of the loader, [maxFiles] and [maxSize], with their defaults
    100 and 50000. *)
Record CodebaseConfig : Type := mkCodebaseConfig {
  maxFiles : Z;
  maxSize : Z
}.

Definition codebase_config (opt_maxFiles opt_maxSize : option jsnum) : CodebaseConfig :=
  {| maxFiles := num_or opt_maxFiles 100; maxSize := num_or opt_maxSize 50000 |}.

(** [s.slice(0, end)] on a string. *)
Definition str_slice0 (stop : Z) (s : string) : string :=
  let len := Z.of_nat (String.length s) in
  let final := if (stop <? 0)%Z then Z.max (len + stop) 0 else Z.min stop len in
  String.substring 0 (Z.to_nat final) s.

(** The content of a file as it is indexed. *)
Definition truncate (cfg : CodebaseConfig) (data : string) : string :=
  if (maxSize cfg <? Z.of_nat (String.length data))%Z
  then str_slice0 (maxSize cfg) data +:+ lf +:+ "... (truncated)"
  else data.

(** The page pushed for a file. *)
Definition file_page (clock : nat -> string) (cfg : CodebaseConfig)
  (full rel : string) (data : option string) (count : nat) : Page :=
  let truncated := truncate cfg (default EmptyString data) in
  {| url := "file://" +:+ full;
     title := rel;
     content := "# " +:+ rel +:+ lf +:+ lf +:+ "```" +:+ lf +:+ truncated +:+ lf +:+ "```";
     wordCount := length (JsString.split_ws truncated);
     page_scrapedAt := clock count |}.

(** The body of the [for] loop of [walk] for one entry of the directory
    [dir], once the test of [count] has let it through; the state is [count]
    and [pages].  A directory is walked by the same loop, which is entered
    only while [count] is below [maxFiles]. *)
Fixpoint walk_entry (lib : PathLib) (clock : nat -> string) (cfg : CodebaseConfig)
  (dirPath dir : string) (ent : FsEntry) (st : nat * list Page) : nat * list Page :=
  let full := path_join lib dir (entry_name ent) in
  let rel := path_relative lib dirPath full in
  if existsb (JsString.includes rel) IGNORE then st
  else
    match ent with
    | FsDir _ entries =>
        if (maxFiles cfg <=? Z.of_nat (fst st))%Z then st
        else
          match entries with
          | Some l =>
              (fix walk_entries (l : list FsEntry) (st : nat * list Page) :=
                 match l with
                 | [] => st
                 | e :: rest =>
                     if (maxFiles cfg <=? Z.of_nat (fst st))%Z then st
                     else walk_entries rest (walk_entry lib clock cfg dirPath full e st)
                 end) l st
          | None => st
          end
    | FsFile name data =>
        if existsb (String.eqb (path_extname lib name)) EXTENSIONS
        then (S (fst st), snd st ++ [file_page clock cfg full rel data (fst st)])
        else st
    end.

(** The [for] loop of [walk] over the entries of [dir]. *)
Fixpoint walk_entries (lib : PathLib) (clock : nat -> string) (cfg : CodebaseConfig)
  (dirPath dir : string) (l : list FsEntry) (st : nat * list Page) : nat * list Page :=
  match l with
  | [] => st
  | e :: rest =>
      if (maxFiles cfg <=? Z.of_nat (fst st))%Z then st
      else walk_entries lib clock cfg dirPath dir rest
             (walk_entry lib clock cfg dirPath dir e st)
  end.

(** [walk(dir)] *)
Definition walk (lib : PathLib) (clock : nat -> string) (cfg : CodebaseConfig)
  (dirPath dir : string) (entries : option (list FsEntry)) (st : nat * list Page)
  : nat * list Page :=
  if (maxFiles cfg <=? Z.of_nat (fst st))%Z then st
  else walk_entries lib clock cfg dirPath dir (default [] entries) st.

(** [loadCodebase(dirPath, options)]: [root] is what the resolved path holds,
    [None] when it does not exist. *)
Definition loadCodebase (lib : PathLib) (clock : nat -> string)
  (opt_maxFiles opt_maxSize : option jsnum) (dirPath : string)
  (root : option (option (list FsEntry))) : outcome LoaderResult :=
  let cfg := codebase_config opt_maxFiles opt_maxSize in
  let resolved := path_resolve lib dirPath in
  match root with
  | None => Thrown
  | Some entries =>
      let '(_, pages) := walk lib clock cfg dirPath resolved entries (0, []) in
      Returned {| lr_pageCount := length pages;
                  lr_pages := pages;
                  lr_scrapedAt := clock (length pages);
                  lr_baseUrl := resolved;
                  lr_source := "codebase" |}
  end.

(** What holds of a page of the codebase loader: it is the page of a file
    whose relative path holds no ignored name. *)
Definition indexed_page (lib : PathLib) (clock : nat -> string)
  (cfg : CodebaseConfig) (dirPath : string) (p : Page) : Prop :=
  exists full data count,
    p = file_page clock cfg full (path_relative lib dirPath full) data count /\
    existsb (JsString.includes (path_relative lib dirPath full)) IGNORE = false.

(** The state of a walk is sound: [count] is the number of pages, it is not
    above [maxFiles], and every page is that of an indexed file. *)
Definition walk_sound (lib : PathLib) (clock : nat -> string)
  (cfg : CodebaseConfig) (dirPath : string) (st : nat * list Page) : Prop :=
  fst st = length (snd st) /\
  (Z.of_nat (fst st) <= Z.max (maxFiles cfg) 0)%Z /\
  Forall (indexed_page lib clock cfg dirPath) (snd st).

Module Tree.

(** A path library for sample trees: paths are joined with a slash, the
    relative path is what follows the root and its slash, and the extension
    starts at the last dot. *)
Fixpoint after_last_dot (s : string) : option string :=
  match s with
  | EmptyString => None
  | String c r =>
      match after_last_dot r with
      | Some ext => Some ext
      | None => if Ascii.eqb c "." then Some s else None
      end
  end.

Definition lib : PathLib :=
  {| path_join := fun a b => a +:+ "/" +:+ b;
     path_relative := fun root full =>
       default full (strip_prefix (root +:+ "/") full);
     path_extname := fun name => default EmptyString (after_last_dot name);
     path_resolve := fun p => p |}.

(** A project with a source file, a file whose name holds the word build,
    and a directory of dependencies. *)
Definition project : list FsEntry :=
  [ FsDir "src"
      (Some [ FsFile "main.ts" (Some "let x = 1");
              FsFile "rebuild.js" (Some "run()");
              FsFile "notes.txt" (Some "todo") ]);
    FsDir "node_modules" (Some [ FsFile "dep.js" (Some "dep") ]);
    FsFile "index.js" (Some "start()") ].

End Tree.

(** * Properties *)

(** ** The constructor *)

(** C10: every falsy value of [maxPages], [timeout] and [concurrency] (absent,
    0 or NaN) is replaced by the default 200, 5000 and 5, so that no options
    object gives a scraper whose page budget or concurrency is zero. *)
Theorem constructor_defaults_on_falsy :
  (forall a b c : falsy_value,
      constructor (mkOptions (falsy_option a) (falsy_option b) (falsy_option c))
      = mkConfig 200 5000 5) /\
  constructor (mkOptions (Some (Num 0)) (Some (Num 0)) (Some (Num 0)))
  = mkConfig 200 5000 5 /\
  (forall o : Options,
      maxPages (constructor o) <> 0%Z /\ timeout (constructor o) <> 0%Z /\
      concurrency (constructor o) <> 0%Z).
Proof.
  split; [| split].
  - intros [] [] []; reflexivity.
  - reflexivity.
  - intros [[[m|]|] [[t|]|] [[c|]|]]; unfold constructor, num_or; simpl;
      repeat match goal with
             | |- context [Z.eqb ?z 0] => destruct (Z.eqb_spec z 0)
             end; repeat split; lia.
Qed.

(** A truthy number is kept as it is. *)
Lemma num_or_truthy (z d : Z) : z <> 0%Z -> num_or (Some (Num z)) d = z.
Proof.
  intros Hz. unfold num_or. destruct (Z.eqb_spec z 0); [contradiction | reflexivity].
Qed.

(** ** The word count *)

Lemma split_ws_from_length (s cur : string) (inws : bool) :
  length (JsString.split_ws_from s cur inws)
  = count_tokens_from s (negb inws) + (if inws then 0 else 1)
    + (if ends_ws_from s inws then 1 else 0).
Proof.
  revert cur inws. induction s as [| c r IH]; intros cur inws.
  - destruct inws; reflexivity.
  - simpl. destruct (JsString.is_ws c) eqn:Hc.
    + destruct inws; simpl; rewrite IH; simpl; lia.
    + rewrite IH. destruct inws; simpl; lia.
Qed.

Lemma count_tokens_from_start (s : string) :
  count_tokens_from s false
  = count_tokens_from s true + (if starts_with_token s then 1 else 0).
Proof.
  destruct s as [| c r]; simpl; [reflexivity |].
  destruct (JsString.is_ws c); simpl; lia.
Qed.

(** The count that [scrapePage] stores is the number of tokens, plus one when
    the text is empty or begins with white space, plus one when it ends in
    white space. *)
Lemma wordCount_law (s : string) :
  length (JsString.split_ws s)
  = token_count s + (if starts_with_token s then 0 else 1)
    + (if ends_with_ws s then 1 else 0).
Proof.
  unfold JsString.split_ws, token_count, ends_with_ws.
  rewrite split_ws_from_length, count_tokens_from_start. simpl.
  destruct (starts_with_token s); lia.
Qed.

(** C9: on a page whose Markdown is empty the scraper stores the word count 1,
    although the content has no token; the crawl of a site whose only page has
    an empty body shows it. *)
Theorem wordCount_of_empty_content :
  exists r e,
    scrape 3 Sample.empty_world (Sample.config 200 5)
           "https://example.com/docs/a" Sample.fresh = Returned (r, e) /\
    List.map (fun p => (content p, wordCount p, token_count (content p))) (pages r)
    = [(EmptyString, 1, 0)].
Proof. eexists. eexists. split; vm_compute; reflexivity. Qed.

(** When the text is not empty and has no white space at either end, the
    stored count is the number of tokens. *)
Lemma wordCount_exact (s : string) :
  starts_with_token s = true -> ends_with_ws s = false ->
  length (JsString.split_ws s) = token_count s.
Proof.
  intros Hs He. rewrite wordCount_law, Hs, He. lia.
Qed.

(** ** The sitemap resolver *)

Lemma probe_sitemaps_step (w : World) (c : string) (rest : list string) (e : Engine) :
  probe_sitemaps w (c :: rest) e
  = match candidate_answer w (length (requests e)) c with
    | [] => probe_sitemaps w rest (log_request c e)
    | urls => (urls, log_request c e)
    end.
Proof.
  simpl. unfold candidate_answer.
  destruct (http_get w (length (requests e)) c 3000) as [data |]; [| reflexivity].
  destruct (load_xml w data) as [doc |]; [| reflexivity].
  destruct (collect_locs (xml_url_locs doc) ++ collect_locs (xml_sitemap_locs doc));
    reflexivity.
Qed.

(** The resolver touches nothing but the log of requests. *)
Lemma probe_sitemaps_fields (w : World) (cs : list string) (e : Engine) :
  let e' := snd (probe_sitemaps w cs e) in
  visited e' = visited e /\ queue e' = queue e /\ eng_pages e' = eng_pages e /\
  enqueued e' = enqueued e /\ length (requests e) <= length (requests e').
Proof.
  revert e. induction cs as [| c rest IH]; intros e.
  - simpl. repeat split; reflexivity || lia.
  - rewrite probe_sitemaps_step.
    destruct (candidate_answer w (length (requests e)) c).
    + specialize (IH (log_request c e)). simpl in IH |- *.
      rewrite length_app in IH. simpl in IH.
      destruct IH as (? & ? & ? & ? & ?). repeat split; try assumption. lia.
    + simpl. rewrite length_app. repeat split; reflexivity || lia.
Qed.

(** When no candidate answers with a location, the resolver returns the empty
    list after one request to every entry of its list. *)
Lemma probe_sitemaps_exhausted (w : World) (cs : list string) (e : Engine) :
  (forall n c, candidate_answer w n c = []) ->
  probe_sitemaps w cs e = ([], fold_left (fun e c => log_request c e) cs e).
Proof.
  intros Hnone. revert e. induction cs as [| c rest IH]; intros e.
  - reflexivity.
  - rewrite probe_sitemaps_step, Hnone. simpl. apply IH.
Qed.

(** The locations the resolver returns are never empty strings. *)
Lemma collect_locs_truthy (texts : list string) (u : string) :
  In u (collect_locs texts) -> u <> EmptyString.
Proof.
  unfold collect_locs. intros Hin. apply filter_In in Hin as [_ Hne].
  intros ->. discriminate Hne.
Qed.

(** On a site whose answers do not change from one request to the next, the
    resolver returns what a probe of the four listed locations returns. *)
Lemma tryFetchSitemap_stable (w : World) (b : string) (p : ParsedUrl) (e : Engine) :
  (forall n m c, candidate_answer w n c = candidate_answer w m c) ->
  fst (probe_sitemaps w (sitemapUrls b p) e)
  = fst (probe_sitemaps w (listed_candidates b p) e).
Proof.
  intros Hstable. unfold sitemapUrls, listed_candidates.
  repeat rewrite probe_sitemaps_step.
  rewrite (Hstable (length (requests e)) 0 (b +:+ "/sitemap.xml")).
  destruct (candidate_answer w 0 (b +:+ "/sitemap.xml")) eqn:H1; [| reflexivity].
  rewrite (Hstable _ 0 (b +:+ "/sitemap_index.xml")).
  destruct (candidate_answer w 0 (b +:+ "/sitemap_index.xml")) eqn:H2; [| reflexivity].
  repeat rewrite probe_sitemaps_step.
  rewrite (Hstable _ 0 (b +:+ "/sitemap.xml")), H1.
  repeat rewrite probe_sitemaps_step.
  rewrite (Hstable _ 0 (origin p +:+ "/sitemap.xml")).
  rewrite (Hstable (length (requests (log_request _ (log_request _ e)))) 0
             (origin p +:+ "/sitemap.xml")).
  destruct (candidate_answer w 0 (origin p +:+ "/sitemap.xml")); [| reflexivity].
  repeat rewrite probe_sitemaps_step.
  rewrite (Hstable _ 0 (origin p +:+ "/sitemap_index.xml")).
  rewrite (Hstable (length (requests (log_request _ (log_request _ (log_request _ e))))) 0
             (origin p +:+ "/sitemap_index.xml")).
  destruct (candidate_answer w 0 (origin p +:+ "/sitemap_index.xml")); reflexivity.
Qed.

(** C7: the resolver probes five locations, [{base}/sitemap.xml] a second
    time in third place.  On a site that rejects the first two requests of a
    run it returns the sitemap under the base URL from that third request; a
    probe of the four listed locations asks the origin third and returns the
    sitemap of the origin. *)
Theorem tryFetchSitemap_probes_base_twice :
  exists parsed e,
    url_parse Sample.flaky_world "https://example.com/docs" = Some parsed /\
    tryFetchSitemap Sample.flaky_world "https://example.com/docs" Sample.fresh
    = Returned (["https://example.com/docs/a"], e) /\
    requests e = [ "https://example.com/docs/sitemap.xml";
                   "https://example.com/docs/sitemap_index.xml";
                   "https://example.com/docs/sitemap.xml" ] /\
    fst (probe_sitemaps Sample.flaky_world
           (listed_candidates "https://example.com/docs" parsed) Sample.fresh)
    = ["https://example.com/docs/b"].
Proof.
  eexists. eexists. split; [vm_compute; reflexivity |].
  split; [vm_compute; reflexivity |].
  split; vm_compute; reflexivity.
Qed.

(** On a host that answers nothing the resolver issues five requests, two of
    them to the same location. *)
Lemma tryFetchSitemap_five_requests :
  exists e,
    tryFetchSitemap Sample.dead_world "https://example.com/docs" Sample.fresh
    = Returned ([], e) /\
    requests e = [ "https://example.com/docs/sitemap.xml";
                   "https://example.com/docs/sitemap_index.xml";
                   "https://example.com/docs/sitemap.xml";
                   "https://example.com/sitemap.xml";
                   "https://example.com/sitemap_index.xml" ].
Proof. eexists. split; vm_compute; reflexivity. Qed.

(** ** Link discovery in sitemap mode and the page budget *)

(** C1: in sitemap mode the links of a fetched page are followed all the same.
    The sitemap lists one page; the scraper enqueues and fetches the page it
    links to, and the result holds both. *)
Theorem sitemap_mode_follows_links :
  exists e1 r e,
    tryFetchSitemap Sample.mapped_world "https://example.com/docs" (reset Sample.fresh)
    = Returned (["https://example.com/docs/a"], e1) /\
    sitemap_seed (Sample.config 200 5) e1 "https://example.com"
                 ["https://example.com/docs/a"]
    = ["https://example.com/docs/a"] /\
    scrape 4 Sample.mapped_world (Sample.config 200 5)
           "https://example.com/docs" Sample.fresh = Returned (r, e) /\
    enqueued e = ["https://example.com/docs/b"] /\
    requests e = [ "https://example.com/docs/sitemap.xml";
                   "https://example.com/docs/a"; "https://example.com/docs/b" ] /\
    List.map url (pages r)
    = ["https://example.com/docs/a"; "https://example.com/docs/b"].
Proof.
  eexists. eexists. eexists.
  split; [vm_compute; reflexivity |].
  split; [vm_compute; reflexivity |].
  split; [vm_compute; reflexivity |].
  split; [vm_compute; reflexivity |].
  split; vm_compute; reflexivity.
Qed.

(** C2: the result can hold more pages than [maxPages].  With a budget of 2
    and a concurrency of 5, a start page that links to four pages gives a
    result of 5 pages. *)
Theorem page_budget_overshoot :
  exists r e,
    scrape 4 Sample.wide_world (Sample.config 2 5)
           "https://example.com/docs/a" Sample.fresh = Returned (r, e) /\
    length (pages r) = 5 /\ pageCount r = 5 /\
    (maxPages (Sample.config 2 5) < Z.of_nat (length (pages r)))%Z.
Proof.
  eexists. eexists. split; [vm_compute; reflexivity |].
  split; [reflexivity |]. split; [reflexivity |]. vm_compute. reflexivity.
Qed.

(** ** Bookkeeping: what each step of a crawl changes *)

Lemma push_all_nil (e : Engine) : push_all [] e = e.
Proof. destruct e. unfold push_all. simpl. rewrite !app_nil_r. reflexivity. Qed.

Lemma push_all_app (l1 l2 : list string) (e : Engine) :
  push_all l2 (push_all l1 e) = push_all (l1 ++ l2) e.
Proof. unfold push_all. simpl. rewrite !app_assoc. reflexivity. Qed.

(** [shouldFollow] accepts a URL exactly when it is not null, not empty,
    under the origin, not visited, and free of every excluded pattern. *)
Lemma shouldFollow_spec (e : Engine) (u : option string) (base : string) :
  shouldFollow e u base = true <->
  exists s, u = Some s /\ in_scope base s /\ (s ∉ visited e).
Proof.
  unfold shouldFollow, in_scope. destruct u as [s |];
    [| split; [discriminate | intros (s & Hs & _); discriminate]].
  destruct (JsString.is_empty s) eqn:He.
  { rewrite orb_true_l. split; [discriminate |].
    intros (s0 & Hs & (Hne & _) & _). inversion Hs; subst.
    destruct s0; [contradiction | discriminate]. }
  rewrite orb_false_l.
  destruct (JsString.startsWith s base) eqn:Hp; cbn [negb].
  2:{ split; [discriminate |]. intros (s0 & Hs & (_ & Hq & _) & _).
      inversion Hs; subst. congruence. }
  case_bool_decide as Hv.
  { split; [discriminate |]. intros (s0 & Hs & _ & Hn).
    inversion Hs; subst. contradiction. }
  rewrite negb_true_iff. split.
  - intros Hex. exists s. split; [reflexivity |]. split; [| exact Hv].
    split; [intros ->; discriminate |]. split; [exact Hp |].
    intros pat Hpat. destruct (JsString.includes s pat) eqn:Hi; [| reflexivity].
    assert (Ht : existsb (JsString.includes s) excludePatterns = true).
    { apply existsb_exists. exists pat. split; assumption. }
    congruence.
  - intros (s0 & Hs & (_ & _ & Hpat) & _). inversion Hs; subst.
    destruct (existsb (JsString.includes s0) excludePatterns) eqn:Hex;
      [| reflexivity].
    apply existsb_exists in Hex as (pat & Hin & Hi).
    rewrite (Hpat pat Hin) in Hi. discriminate.
Qed.

Section Crawl.

Context (w : World) (cfg : Config) (base basePath : string).

(** A link is pushed only when [shouldFollow] accepts it. *)
Lemma follow_link_spec (e : Engine) (h : option string) :
  exists new,
    follow_link w base basePath e h = push_all new e /\
    Forall (fun u => shouldFollow e (Some u) base = true) new.
Proof.
  unfold follow_link. destruct h as [h |].
  - destruct (JsString.is_empty h).
    + exists []. rewrite push_all_nil. split; [reflexivity | constructor].
    + destruct (resolveUrl w h base basePath) as [u |] eqn:Hres.
      * destruct (shouldFollow e (Some u) base) eqn:Hf.
        -- exists [u]. split; [reflexivity |]. constructor; [exact Hf | constructor].
        -- exists []. rewrite push_all_nil. split; [reflexivity | constructor].
      * simpl. exists []. rewrite push_all_nil. split; [reflexivity | constructor].
  - exists []. rewrite push_all_nil. split; [reflexivity | constructor].
Qed.

Lemma follow_links_spec (hs : list (option string)) (e : Engine) :
  exists new,
    fold_left (follow_link w base basePath) hs e = push_all new e /\
    Forall (fun u => shouldFollow e (Some u) base = true) new.
Proof.
  revert e. induction hs as [| h hs IH]; intros e.
  - exists []. simpl. rewrite push_all_nil. split; [reflexivity | constructor].
  - simpl. destruct (follow_link_spec e h) as (n1 & -> & F1).
    destruct (IH (push_all n1 e)) as (n2 & -> & F2).
    exists (n1 ++ n2). rewrite push_all_app. split; [reflexivity |].
    apply Forall_app. split; assumption.
Qed.

(** A call that resumes either changes nothing, or appends one page for its
    own URL, from a request that succeeded, and then pushes accepted links. *)
Lemma scrapePage_resume_spec (e : Engine) (t : inflight) :
  scrapePage_resume w cfg base basePath e t = e \/
  exists p new,
    scrapePage_resume w cfg base basePath e t = push_all new (push_page p e) /\
    url p = fst t /\ snd t <> None /\
    Forall (fun u => shouldFollow e (Some u) base = true) new /\
    (new <> [] -> (Z.of_nat (S (length (eng_pages e))) < maxPages cfg)%Z).
Proof.
  unfold scrapePage_resume. destruct (snd t) as [data |] eqn:Hd; [| left; reflexivity].
  destruct (load_html w data) as [doc |]; [| left; reflexivity].
  right. exists (make_page w (fst t) doc e).
  destruct (Z.ltb_spec (Z.of_nat (length (eng_pages (push_page (make_page w (fst t) doc e) e))))
              (maxPages cfg)) as [Hlt | Hge].
  - destruct (follow_links_spec (doc_anchors doc)
                (push_page (make_page w (fst t) doc e) e)) as (new & -> & F).
    exists new. split; [reflexivity |]. split; [reflexivity |].
    split; [discriminate |]. split; [exact F |].
    intros _. simpl in Hlt. rewrite length_app in Hlt. simpl in Hlt. lia.
  - exists []. rewrite push_all_nil. split; [reflexivity |]. split; [reflexivity |].
    split; [discriminate |]. split; [constructor | congruence].
Qed.

(** A call that starts either finds its URL visited and ends, or marks it
    visited and issues one request. *)
Lemma scrapePage_start_spec (u : string) (e : Engine) :
  ((u ∈ visited e) /\ scrapePage_start w cfg u e = (e, None)) \/
  ((u ∉ visited e) /\
   scrapePage_start w cfg u e
   = (log_request u (add_visited u e),
      Some (u, http_get w (length (requests e)) u (timeout cfg)))).
Proof.
  unfold scrapePage_start. case_bool_decide; [left | right]; split; auto.
Qed.

(** The synchronous part of a batch: the URLs put in flight are distinct, new
    to [visited] and taken from the batch; nothing else changes. *)
Lemma dispatch_spec (batch : list string) (e e' : Engine)
  (ts : list inflight) :
  dispatch w cfg batch e = (e', ts) ->
  queue e' = queue e /\ eng_pages e' = eng_pages e /\ enqueued e' = enqueued e /\
  visited e' = list_to_set (ts.*1) ∪ visited e /\
  requests e' = requests e ++ ts.*1 /\
  NoDup (ts.*1) /\
  (forall u, u ∈ ts.*1 -> (u ∉ visited e) /\ (u ∈ batch)) /\
  length ts <= length batch /\
  (forall t, t ∈ ts -> exists n, length (requests e) <= n /\
                                 snd t = http_get w n (fst t) (timeout cfg)).
Proof.
  revert e e' ts. induction batch as [| u rest IH]; intros e e' ts Hd.
  - simpl in Hd. inversion Hd; subst. rewrite fmap_nil, app_nil_r, list_to_set_nil.
    split; [reflexivity |]. split; [reflexivity |]. split; [reflexivity |].
    split; [symmetry; apply (left_id_L ∅ (∪)) |]. split; [reflexivity |].
    split; [constructor |].
    split; [intros u Hu; apply elem_of_nil in Hu; contradiction |].
    split; [reflexivity |].
    intros t Ht. apply elem_of_nil in Ht. contradiction.
  - simpl in Hd.
    destruct (scrapePage_start_spec u e) as [[Hin Hs] | [Hnin Hs]];
      rewrite Hs in Hd; clear Hs.
    + destruct (dispatch w cfg rest e) as [e2 ts2] eqn:Hrest.
      inversion Hd; subst. specialize (IH _ _ _ Hrest).
      destruct IH as (Hq & Hp & Hen & Hv & Hr & Hnd & Hnew & Hlen & Hresp).
      do 6 (split; [assumption |]).
      split; [| split; [simpl; lia | exact Hresp]].
      intros u0 Hu0. apply Hnew in Hu0 as [Hfresh Hrest0].
      split; [exact Hfresh | apply list_elem_of_further, Hrest0].
    + destruct (dispatch w cfg rest (log_request u (add_visited u e)))
        as [e2 ts2] eqn:Hrest.
      inversion Hd; subst. specialize (IH _ _ _ Hrest). simpl in IH.
      destruct IH as (Hq & Hp & Hen & Hv & Hr & Hnd & Hnew & Hlen & Hresp).
      rewrite fmap_cons. cbn [fst].
      do 3 (split; [assumption |]).
      split.
      { rewrite Hv. apply set_eq. intros x.
        rewrite list_to_set_cons, !elem_of_union, elem_of_singleton. tauto. }
      split; [rewrite Hr, <- app_assoc; reflexivity |].
      split.
      { apply NoDup_cons. split; [| exact Hnd].
        intros Hu. apply Hnew in Hu as [Hu _].
        apply Hu, elem_of_union_l, elem_of_singleton. reflexivity. }
      split.
      { intros u0 Hu0. apply elem_of_cons in Hu0 as [-> | Hu0].
        - split; [exact Hnin | left].
        - apply Hnew in Hu0 as [Hfresh Hrest0]. split.
          + intros Hvis. apply Hfresh, elem_of_union_r, Hvis.
          + apply list_elem_of_further, Hrest0. }
      split; [simpl; lia |].
      intros t Ht. apply elem_of_cons in Ht as [-> | Ht].
      * exists (length (requests e)). split; [lia | reflexivity].
      * destruct (Hresp t Ht) as (n & Hn & Hs). exists n. split; [| exact Hs].
        rewrite length_app in Hn. lia.
Qed.

Lemma grow_nil (e : Engine) : grow [] [] e = e.
Proof. destruct e. unfold grow. simpl. rewrite !app_nil_r. reflexivity. Qed.

Lemma grow_grow (ps1 ps2 : list Page) (l1 l2 : list string) (e : Engine) :
  grow ps2 l2 (grow ps1 l1 e) = grow (ps1 ++ ps2) (l1 ++ l2) e.
Proof. unfold grow. simpl. rewrite !app_assoc. reflexivity. Qed.

Lemma insert_at_perm {A : Type} (n : nat) (x : A) (l : list A) :
  insert_at n x l ≡ₚ x :: l.
Proof.
  revert n. induction l as [| y r IH]; intros [| m]; simpl; try reflexivity.
  rewrite IH. apply Permutation_swap.
Qed.

(** The requests of a batch complete in some order: none is lost, none is
    added. *)
Lemma completion_order_perm {A : Type} (choices : list nat) (l : list A) :
  completion_order choices l ≡ₚ l.
Proof.
  revert choices. induction l as [| x r IH]; intros choices; simpl.
  - reflexivity.
  - rewrite insert_at_perm. rewrite IH. reflexivity.
Qed.

(** The calls of a batch that resume, in any order: together they append the
    pages [ps], one for each of some successful requests [ok] of the batch,
    and push the links [new], each accepted by [shouldFollow]. *)
Lemma resume_all_spec (ts : list inflight) (e : Engine) :
  exists ps new ok,
    fold_left (scrapePage_resume w cfg base basePath) ts e = grow ps new e /\
    ok ⊆+ ts /\ url <$> ps = ok.*1 /\
    Forall (fun t => snd t <> None) ok /\
    Forall (fun u => shouldFollow e (Some u) base = true) new /\
    (ps = [] -> new = []).
Proof.
  revert e. induction ts as [| t ts IH]; intros e.
  - exists [], [], []. simpl. rewrite grow_nil.
    repeat split; try constructor; reflexivity.
  - simpl.
    destruct (scrapePage_resume_spec e t)
      as [-> | (p & n1 & -> & Hu & Hs & F1 & _)].
    + destruct (IH e) as (ps & new & ok & -> & Hsub & Hurl & Hok & F & Hnil).
      exists ps, new, ok. repeat split; try assumption.
      apply submseteq_cons. exact Hsub.
    + destruct (IH (push_all n1 (push_page p e)))
        as (ps & n2 & ok & -> & Hsub & Hurl & Hok & F2 & _).
      exists (p :: ps), (n1 ++ n2), (t :: ok).
      split. { change (push_all n1 (push_page p e)) with (grow [p] n1 e).
               rewrite grow_grow. reflexivity. }
      split. { apply submseteq_skip. exact Hsub. }
      split. { rewrite !fmap_cons, Hu, Hurl. reflexivity. }
      split. { constructor; assumption. }
      split. { apply Forall_app. split; assumption. }
      discriminate.
Qed.

Lemma settle_spec (ts : list inflight) (e : Engine) :
  exists ps new ok,
    settle w cfg base basePath ts e = grow ps new e /\
    ok ⊆+ ts /\ url <$> ps = ok.*1 /\
    Forall (fun t => snd t <> None) ok /\
    Forall (fun u => shouldFollow e (Some u) base = true) new /\
    (ps = [] -> new = []).
Proof.
  unfold settle.
  destruct (resume_all_spec
              (completion_order (completion w (length (requests e))) ts) e)
    as (ps & new & ok & Heq & Hsub & Hrest).
  exists ps, new, ok. split; [exact Heq |]. split; [| exact Hrest].
  etransitivity; [exact Hsub |].
  apply Permutation_submseteq, completion_order_perm.
Qed.

(** The batch that [splice] takes from the queue. *)
Lemma splice0_spec {A : Type} (c : Z) (q : list A) :
  exists batch rest,
    splice0 c q = (batch, rest) /\ q = batch ++ rest /\
    (Z.of_nat (length batch) <= Z.max c 0)%Z /\
    ((0 < c)%Z -> q <> [] -> batch <> []).
Proof.
  unfold splice0. eexists. eexists. split; [reflexivity |].
  split; [symmetry; apply firstn_skipn |].
  split.
  - rewrite length_firstn. lia.
  - intros Hc Hq. destruct q as [| x q]; [contradiction |].
    assert (Hn : exists k, Z.to_nat (Z.min (Z.max c 0) (Z.of_nat (length (x :: q)))) = S k).
    { exists (Nat.pred (Z.to_nat (Z.min (Z.max c 0) (Z.of_nat (length (x :: q)))))).
      simpl length. lia. }
    destruct Hn as [k ->]. discriminate.
Qed.

(** One turn of the loop, as a whole. *)
Lemma run_batch_spec (e : Engine) :
  exists batch rest sent ps new,
    queue e = batch ++ rest /\
    (Z.of_nat (length batch) <= Z.max (concurrency cfg) 0)%Z /\
    ((0 < concurrency cfg)%Z -> queue e <> [] -> batch <> []) /\
    visited (run_batch w cfg base basePath e) = list_to_set sent ∪ visited e /\
    queue (run_batch w cfg base basePath e) = rest ++ new /\
    eng_pages (run_batch w cfg base basePath e) = eng_pages e ++ ps /\
    requests (run_batch w cfg base basePath e) = requests e ++ sent /\
    enqueued (run_batch w cfg base basePath e) = enqueued e ++ new /\
    NoDup sent /\
    (forall u, u ∈ sent -> (u ∉ visited e) /\ (u ∈ batch)) /\
    length sent <= length batch /\
    url <$> ps ⊆+ sent /\
    Forall (fun u => in_scope base u /\ (u ∉ list_to_set sent ∪ visited e)) new /\
    (ps = [] -> new = []) /\
    (forall p, p ∈ ps ->
       exists n, length (requests e) <= n /\
                 http_get w n (url p) (timeout cfg) <> None).
Proof.
  unfold run_batch.
  destruct (splice0_spec (concurrency cfg) (queue e))
    as (batch & rest & -> & Hq & Hlen & Hne).
  destruct (dispatch w cfg batch (set_queue rest e)) as [e1 ts] eqn:Hd.
  apply dispatch_spec in Hd.
  destruct Hd as (Hq1 & Hp1 & Hen1 & Hv1 & Hr1 & Hnd & Hnew & Hlen1 & Hresp).
  destruct (settle_spec ts e1)
    as (ps & new & ok & -> & Hsub & Hurl & Hok & F & Hnil).
  exists batch, rest, (ts.*1), ps, new.
  simpl in Hq1, Hp1, Hen1, Hv1, Hr1, Hresp, Hnew. simpl.
  rewrite Hq1, Hp1, Hen1, Hr1, Hv1.
  split; [exact Hq |]. split; [exact Hlen |]. split; [exact Hne |].
  do 5 (split; [reflexivity |]).
  split; [exact Hnd |]. split; [exact Hnew |].
  split; [rewrite length_fmap; exact Hlen1 |].
  split; [rewrite Hurl; apply fmap_submseteq; exact Hsub |].
  split.
  { eapply Forall_impl; [exact F |]. intros u Hf. cbv beta in Hf.
    apply shouldFollow_spec in Hf as (s & Hs & Hsc & Hv).
    inversion Hs; subst. rewrite <- Hv1. split; assumption. }
  split; [exact Hnil |].
  intros p Hp.
  assert (Hin : url p ∈ ok.*1).
  { rewrite <- Hurl. apply list_elem_of_fmap_2. exact Hp. }
  apply list_elem_of_fmap in Hin as (t & Hut & Ht).
  destruct (Hresp t (elem_of_submseteq _ _ _ Ht Hsub)) as (n & Hn & Hs).
  exists n. split; [exact Hn |]. rewrite Hut, <- Hs.
    rewrite Forall_forall in Hok. apply Hok. exact Ht.
Qed.

(** ** The loop *)

Lemma crawl_loop_step (fuel : nat) (e : Engine) :
  crawl_loop (S fuel) w cfg base basePath e
  = if loop_test cfg e
    then crawl_loop fuel w cfg base basePath (run_batch w cfg base basePath e)
    else Some e.
Proof. reflexivity. Qed.

(** A property kept by every turn of the loop holds when the loop ends, and
    the loop ends only when its test fails. *)
Lemma crawl_loop_invariant (P : Engine -> Prop) :
  (forall e, P e -> loop_test cfg e = true -> P (run_batch w cfg base basePath e)) ->
  forall fuel e e',
    P e -> crawl_loop fuel w cfg base basePath e = Some e' ->
    P e' /\ loop_test cfg e' = false.
Proof.
  intros Hstep. induction fuel as [| fuel IH]; intros e e' HP Hrun.
  - discriminate.
  - rewrite crawl_loop_step in Hrun. destruct (loop_test cfg e) eqn:Ht.
    + apply (IH _ _ (Hstep _ HP Ht) Hrun).
    + inversion Hrun; subst. split; assumption.
Qed.

(** With a positive concurrency every turn either appends a page or shortens
    the queue, so the loop ends. *)
Lemma crawl_loop_terminates :
  (0 < concurrency cfg)%Z ->
  forall n m e,
    Z.to_nat (maxPages cfg - Z.of_nat (length (eng_pages e))) = n ->
    length (queue e) = m ->
    exists fuel e', crawl_loop fuel w cfg base basePath e = Some e'.
Proof.
  intros Hc. induction n as [n IHn] using lt_wf_ind.
  induction m as [m IHm] using lt_wf_ind. intros e Hn Hm.
  destruct (loop_test cfg e) eqn:Ht.
  - unfold loop_test in Ht. apply andb_true_iff in Ht as [Hq Hp].
    apply Nat.ltb_lt in Hq. apply Z.ltb_lt in Hp.
    destruct (run_batch_spec e)
      as (batch & rest & sent & ps & new & Hqe & _ & Hne & _ & Hq' & Hp' & _ & _
          & _ & _ & _ & _ & _ & Hnil & _).
    assert (Hnext : exists fuel e',
               crawl_loop fuel w cfg base basePath (run_batch w cfg base basePath e)
               = Some e').
    { destruct ps as [| p ps].
      - apply (IHm (length (queue (run_batch w cfg base basePath e)))).
        + rewrite Hq', (Hnil eq_refl), app_nil_r. subst m. rewrite Hqe, length_app.
          assert (batch <> []) as Hb.
          { apply Hne; [exact Hc |]. intros Hnil'. rewrite Hnil' in Hq.
            simpl in Hq. lia. }
          destruct batch; [contradiction | simpl; lia].
        + rewrite Hp', app_nil_r. exact Hn.
        + reflexivity.
      - apply (IHn (Z.to_nat (maxPages cfg
                              - Z.of_nat (length (eng_pages (run_batch w cfg base basePath e))))))
          with (m := length (queue (run_batch w cfg base basePath e))).
        + rewrite Hp', length_app. simpl. subst n. lia.
        + reflexivity.
        + reflexivity. }
    destruct Hnext as (fuel & e' & Hrun).
    exists (S fuel), e'. rewrite crawl_loop_step.
    unfold loop_test. rewrite (proj2 (Nat.ltb_lt _ _) Hq), (proj2 (Z.ltb_lt _ _) Hp).
    exact Hrun.
  - exists 1, e. rewrite crawl_loop_step, Ht. reflexivity.
Qed.

End Crawl.

(** ** [scrape] as a whole *)

(** A call of [scrape] that returns has resolved the sitemap, has parsed the
    URL that fixes the scope, and has run the loop from a state without
    pages, visited URLs or pushed links. *)
Lemma scrape_returned (fuel : nat) (w : World) (cfg : Config) (startUrl : string)
  (e : Engine) (r : ScrapeResult) (e' : Engine) :
  scrape fuel w cfg startUrl e = Returned (r, e') ->
  exists sitemapPages e1 base basePath e0,
    tryFetchSitemap w startUrl (reset e) = Returned (sitemapPages, e1) /\
    visited e0 = ∅ /\ eng_pages e0 = [] /\ enqueued e0 = [] /\
    requests e0 = requests e1 /\
    ((sitemapPages = [] /\ queue e0 = [startUrl] /\
      exists parsed, url_parse w startUrl = Some parsed /\ base = origin parsed) \/
     (sitemapPages <> [] /\ queue e0 = sitemap_seed cfg e1 base sitemapPages)) /\
    crawl_loop fuel w cfg base basePath e0 = Some e' /\
    pages r = eng_pages e' /\ pageCount r = length (eng_pages e').
Proof.
  unfold scrape, tryFetchSitemap.
  destruct (url_parse w startUrl) as [parsed |] eqn:Hparse; [| discriminate].
  destruct (probe_sitemaps w (sitemapUrls startUrl parsed) (reset e))
    as [l e1] eqn:Hprobe.
  pose proof (probe_sitemaps_fields w (sitemapUrls startUrl parsed) (reset e)) as Hf.
  rewrite Hprobe in Hf. simpl in Hf. destruct Hf as (Hv & Hq & Hp & Hen & _).
  destruct (Nat.ltb_spec 0 (length l)) as [Hlen | Hlen].
  - unfold scrapeFromSitemap.
    destruct (match first_truthy l with
              | Some u => match url_parse w u with
                          | Some p => Some (origin p, getBasePath w u)
                          | None => None
                          end
              | None => Some (EmptyString, EmptyString)
              end) as [[base basePath] |]; [| discriminate].
    destruct (crawl_loop fuel w cfg base basePath
                (set_queue (sitemap_seed cfg e1 base l) e1)) as [e2 |] eqn:Hloop;
      [| discriminate].
    intros Hr. inversion Hr; subst.
    exists l, e1, base, basePath, (set_queue (sitemap_seed cfg e1 base l) e1).
    simpl. repeat split; try assumption; try reflexivity.
    right. split; [| reflexivity]. intros ->. simpl in Hlen. lia.
  - unfold recursiveCrawl. rewrite Hparse.
    destruct (crawl_loop fuel w cfg (origin parsed) (getBasePath w startUrl)
                (set_queue (queue e1 ++ [startUrl]) e1)) as [e2 |] eqn:Hloop;
      [| discriminate].
    intros Hr. inversion Hr; subst.
    exists l, e1, (origin parsed), (getBasePath w startUrl),
      (set_queue (queue e1 ++ [startUrl]) e1).
    simpl. repeat split; try assumption; try reflexivity.
    left. split; [destruct l; [reflexivity | simpl in Hlen; lia] |].
    split; [rewrite Hq; reflexivity |]. exists parsed. split; reflexivity.
Qed.

(** With a positive concurrency, a call of [scrape] whose URLs parse returns,
    whatever the answers to its requests are. *)
Lemma scrape_returns (w : World) (cfg : Config) (startUrl : string)
  (e : Engine) (sitemapPages : list string) (e1 : Engine) :
  (0 < concurrency cfg)%Z ->
  tryFetchSitemap w startUrl (reset e) = Returned (sitemapPages, e1) ->
  scope_parses w sitemapPages ->
  exists fuel r e', scrape fuel w cfg startUrl e = Returned (r, e').
Proof.
  intros Hc Htry Hscope. unfold scrape. rewrite Htry.
  destruct (0 <? length sitemapPages)%nat.
  - unfold scrapeFromSitemap. unfold scope_parses in Hscope.
    destruct (first_truthy sitemapPages) as [u |].
    + destruct (url_parse w u) as [p |]; [| contradiction].
      destruct (crawl_loop_terminates w cfg (origin p) (getBasePath w u) Hc _ _
                  (set_queue (sitemap_seed cfg e1 (origin p) sitemapPages) e1)
                  eq_refl eq_refl) as (fuel & e' & Hrun).
      exists fuel. rewrite Hrun. eexists. eexists. reflexivity.
    + destruct (crawl_loop_terminates w cfg EmptyString EmptyString Hc _ _
                  (set_queue (sitemap_seed cfg e1 EmptyString sitemapPages) e1)
                  eq_refl eq_refl) as (fuel & e' & Hrun).
      exists fuel. rewrite Hrun. eexists. eexists. reflexivity.
  - unfold recursiveCrawl. unfold tryFetchSitemap in Htry.
    destruct (url_parse w startUrl) as [parsed |]; [| discriminate].
    destruct (crawl_loop_terminates w cfg (origin parsed) (getBasePath w startUrl)
                Hc _ _ (set_queue (queue e1 ++ [startUrl]) e1) eq_refl eq_refl)
      as (fuel & e' & Hrun).
    exists fuel. rewrite Hrun. eexists. eexists. reflexivity.
Qed.

(** ** The result of a crawl *)

(** C3: in the result of every crawl, in sitemap mode and in recursive mode,
    [pageCount] is the length of [pages]. *)
Theorem pageCount_is_length (fuel : nat) (w : World) (cfg : Config)
  (startUrl : string) (e : Engine) (r : ScrapeResult) (e' : Engine) :
  scrape fuel w cfg startUrl e = Returned (r, e') ->
  pageCount r = length (pages r).
Proof.
  intros Hrun. apply scrape_returned in Hrun.
  destruct Hrun as (l & e1 & base & basePath & e0 & _ & _ & _ & _ & _ & _ & _
                    & Hpages & Hcount).
  rewrite Hcount, Hpages. reflexivity.
Qed.

Lemma pageCount_is_length_witness :
  exists r e',
    scrape 4 Sample.mapped_world (Sample.config 200 5)
           "https://example.com/docs" Sample.fresh = Returned (r, e') /\
    pageCount r = length (pages r).
Proof.
  eexists. eexists. split.
  - vm_compute. reflexivity.
  - eapply (pageCount_is_length 4 Sample.mapped_world (Sample.config 200 5)
              "https://example.com/docs" Sample.fresh).
    vm_compute. reflexivity.
Defined.

(** What a turn of the loop adds to the pages is at most the size of the
    batch, and the batch is at most [concurrency] long. *)
Lemma run_batch_pages_bound (w : World) (cfg : Config) (base basePath : string)
  (e : Engine) :
  (Z.of_nat (length (eng_pages (run_batch w cfg base basePath e)))
   <= Z.of_nat (length (eng_pages e)) + Z.max (concurrency cfg) 0)%Z.
Proof.
  destruct (run_batch_spec w cfg base basePath e)
    as (batch & rest & sent & ps & new & _ & Hlen & _ & _ & _ & Hp & _ & _ & _ & _
        & Hsent & Hsub & _).
  rewrite Hp, length_app. apply submseteq_length in Hsub.
  rewrite length_fmap in Hsub. lia.
Qed.

(** C4: with a positive budget and a positive concurrency, the result of every
    crawl holds fewer than [maxPages + concurrency] pages: a batch is at most
    [concurrency] long, it is dispatched only while there are fewer than
    [maxPages] pages, and each of its members appends at most one page. *)
Theorem pages_below_budget_plus_concurrency (fuel : nat) (w : World) (cfg : Config)
  (startUrl : string) (e : Engine) (r : ScrapeResult) (e' : Engine) :
  (0 < maxPages cfg)%Z -> (0 < concurrency cfg)%Z ->
  scrape fuel w cfg startUrl e = Returned (r, e') ->
  (Z.of_nat (length (pages r)) < maxPages cfg + concurrency cfg)%Z.
Proof.
  intros Hm Hc Hrun. apply scrape_returned in Hrun.
  destruct Hrun as (l & e1 & base & basePath & e0 & _ & _ & Hp0 & _ & _ & _ & Hloop
                    & Hpages & _).
  rewrite Hpages.
  apply (crawl_loop_invariant w cfg base basePath
           (fun e => (Z.of_nat (length (eng_pages e)) < maxPages cfg + concurrency cfg)%Z)) in Hloop.
  - apply Hloop.
  - intros e2 _ Ht. unfold loop_test in Ht. apply andb_true_iff in Ht as [_ Ht].
    apply Z.ltb_lt in Ht.
    pose proof (run_batch_pages_bound w cfg base basePath e2). lia.
  - rewrite Hp0. simpl. lia.
Qed.

Lemma pages_below_budget_plus_concurrency_witness :
  exists r e',
    scrape 4 Sample.wide_world (Sample.config 2 5)
           "https://example.com/docs/a" Sample.fresh = Returned (r, e') /\
    (Z.of_nat (length (pages r)) < 2 + 5)%Z.
Proof.
  eexists. eexists. split.
  - vm_compute. reflexivity.
  - eapply (pages_below_budget_plus_concurrency 4 Sample.wide_world
              (Sample.config 2 5) "https://example.com/docs/a" Sample.fresh).
    + reflexivity.
    + reflexivity.
    + vm_compute. reflexivity.
Defined.

(** ** No URL twice *)

Lemma NoDup_submseteq_of {A : Type} (l k : list A) :
  l ⊆+ k -> NoDup k -> NoDup l.
Proof.
  intros Hsub Hk. apply submseteq_Permutation in Hsub as (k' & Hperm).
  rewrite Hperm in Hk. apply NoDup_app in Hk. apply Hk.
Qed.

(** A turn of the loop keeps the URLs of the pages distinct and visited, and
    the requests for pages distinct and visited. *)
Lemma run_batch_distinct (w : World) (cfg : Config) (base basePath : string)
  (sent0 : list string) (e : Engine) :
  let keeps (e : Engine) :=
    NoDup (url <$> eng_pages e) /\
    (forall u, u ∈ url <$> eng_pages e -> u ∈ visited e) /\
    exists fetched,
      requests e = sent0 ++ fetched /\ NoDup fetched /\
      (forall u, u ∈ fetched -> u ∈ visited e) in
  keeps e -> keeps (run_batch w cfg base basePath e).
Proof.
  intros keeps (Hnd & Hvis & fetched & Hreq & Hnf & Hfv).
  destruct (run_batch_spec w cfg base basePath e)
    as (batch & rest & sent & ps & new & _ & _ & _ & Hv & _ & Hp & Hr & _ & Hns
        & Hnew & _ & Hsub & _).
  unfold keeps. split; [| split].
  - rewrite Hp, fmap_app. apply NoDup_app. split; [exact Hnd |]. split.
    + intros u Hu Hps. apply Hvis in Hu.
      apply (elem_of_submseteq _ _ _ Hps) in Hsub. apply Hnew in Hsub as [Hn _].
      contradiction.
    + apply (NoDup_submseteq_of _ _ Hsub Hns).
  - intros u Hu. rewrite Hv. rewrite Hp, fmap_app in Hu.
    apply elem_of_app in Hu as [Hu | Hu].
    + apply elem_of_union_r, Hvis, Hu.
    + apply elem_of_union_l, elem_of_list_to_set.
      apply (elem_of_submseteq _ _ _ Hu Hsub).
  - exists (fetched ++ sent). split; [rewrite Hr, Hreq, app_assoc; reflexivity |].
    split.
    + apply NoDup_app. split; [exact Hnf |]. split; [| exact Hns].
      intros u Hu Hs. apply Hfv in Hu. apply Hnew in Hs as [Hn _]. contradiction.
    + intros u Hu. rewrite Hv. apply elem_of_app in Hu as [Hu | Hu].
      * apply elem_of_union_r, Hfv, Hu.
      * apply elem_of_union_l, elem_of_list_to_set, Hu.
Qed.

(** C5: in the result of every crawl no two pages have the same URL, and no
    URL is requested twice as a page, whatever the queue and the batches hold:
    [scrapePage] tests and records its URL in [visited] before it awaits. *)
Theorem result_urls_distinct (fuel : nat) (w : World) (cfg : Config)
  (startUrl : string) (e : Engine) (r : ScrapeResult) (e' : Engine) :
  scrape fuel w cfg startUrl e = Returned (r, e') ->
  NoDup (List.map url (pages r)) /\
  exists sitemapPages e1 fetched,
    tryFetchSitemap w startUrl (reset e) = Returned (sitemapPages, e1) /\
    requests e' = requests e1 ++ fetched /\ NoDup fetched.
Proof.
  intros Hrun. apply scrape_returned in Hrun.
  destruct Hrun as (l & e1 & base & basePath & e0 & Htry & Hv0 & Hp0 & _ & Hr0 & _
                    & Hloop & Hpages & _).
  apply (crawl_loop_invariant w cfg base basePath
           (fun e =>
              NoDup (url <$> eng_pages e) /\
              (forall u, u ∈ url <$> eng_pages e -> u ∈ visited e) /\
              exists fetched,
                requests e = requests e1 ++ fetched /\ NoDup fetched /\
                (forall u, u ∈ fetched -> u ∈ visited e))) in Hloop.
  - destruct Hloop as ((Hnd & _ & fetched & Hreq & Hnf & _) & _).
    split; [rewrite Hpages; exact Hnd |].
    exists l, e1, fetched. repeat split; assumption.
  - intros e2 Hkeep _. apply (run_batch_distinct w cfg base basePath (requests e1) e2 Hkeep).
  - rewrite Hp0. split; [constructor |]. split.
    + intros u Hu. apply elem_of_nil in Hu. contradiction.
    + exists []. rewrite app_nil_r. split; [exact Hr0 |]. split; [constructor |].
      intros u Hu. apply elem_of_nil in Hu. contradiction.
Qed.

Lemma result_urls_distinct_witness :
  exists r e',
    scrape 4 Sample.twin_world (Sample.config 200 5)
           "https://example.com/docs/a" Sample.fresh = Returned (r, e') /\
    List.map url (pages r)
    = [ "https://example.com/docs/a"; "https://example.com/docs/c";
        "https://example.com/docs/b" ] /\
    NoDup (List.map url (pages r)).
Proof.
  eexists. eexists. split; [| split].
  - vm_compute. reflexivity.
  - vm_compute. reflexivity.
  - eapply proj1.
    eapply (result_urls_distinct 4 Sample.twin_world (Sample.config 200 5)
              "https://example.com/docs/a" Sample.fresh).
    vm_compute. reflexivity.
Defined.

(** ** The scope of a recursive crawl *)

(** A turn of the loop keeps the pushed links in scope, and keeps the queue,
    the requests for pages and the pages within [allowed], when [allowed]
    holds of every URL in scope. *)
Lemma run_batch_scope (w : World) (cfg : Config) (base basePath : string)
  (allowed : string -> Prop) (sent0 : list string) (e : Engine) :
  (forall u, in_scope base u -> allowed u) ->
  let keeps (e : Engine) :=
    Forall (in_scope base) (enqueued e) /\ Forall allowed (queue e) /\
    (exists fetched, requests e = sent0 ++ fetched /\ Forall allowed fetched) /\
    Forall (fun p => allowed (url p)) (eng_pages e) in
  keeps e -> keeps (run_batch w cfg base basePath e).
Proof.
  intros Hallowed keeps (Hen & Hqueue & (fetched & Hreq & Hfetched) & Hpages).
  destruct (run_batch_spec w cfg base basePath e)
    as (batch & rest & sent & ps & new & Hq & _ & _ & _ & Hq' & Hp & Hr & Hen'
        & _ & Hnew & _ & Hsub & Hscope & _).
  rewrite Hq in Hqueue. apply Forall_app in Hqueue as [Hbatch Hrest].
  assert (Hin : Forall (in_scope base) new).
  { eapply Forall_impl; [exact Hscope |]. intros u [Hu _]. exact Hu. }
  assert (Hsent : Forall allowed sent).
  { apply Forall_forall. intros u Hu. apply Hnew in Hu as [_ Hu].
    rewrite Forall_forall in Hbatch. apply Hbatch, Hu. }
  unfold keeps. split; [| split; [| split]].
  - rewrite Hen'. apply Forall_app. split; assumption.
  - rewrite Hq'. apply Forall_app. split; [exact Hrest |].
    eapply Forall_impl; [exact Hin |]. exact Hallowed.
  - exists (fetched ++ sent). split; [rewrite Hr, Hreq, app_assoc; reflexivity |].
    apply Forall_app. split; assumption.
  - rewrite Hp. apply Forall_app. split; [exact Hpages |].
    apply Forall_forall. intros p Hp'.
    rewrite Forall_forall in Hsent. apply Hsent.
    apply (elem_of_submseteq (url <$> ps)); [| exact Hsub].
    apply list_elem_of_fmap_2. exact Hp'.
Qed.

(** C6: a link is pushed on the queue only when it is not null, not empty,
    under the origin, not visited and free of every excluded pattern; in a
    recursive crawl every link pushed is in scope, and every page requested or
    returned is the start URL or in scope.  From the page
    https://example.com/docs/a the link /docs/b is pushed as
    https://example.com/docs/b, and the link /blog/post is not pushed. *)
Theorem recursive_crawl_follows_in_scope :
  (forall w base basePath e h,
      Forall (fun u => in_scope base u /\ (u ∉ visited e))
             (drop (length (enqueued e))
                   (enqueued (follow_link w base basePath e h)))) /\
  (forall fuel w cfg startUrl e e1 r e',
      tryFetchSitemap w startUrl (reset e) = Returned ([], e1) ->
      scrape fuel w cfg startUrl e = Returned (r, e') ->
      exists parsed fetched,
        url_parse w startUrl = Some parsed /\
        (forall u, In u (enqueued e') -> in_scope (origin parsed) u) /\
        requests e' = requests e1 ++ fetched /\
        (forall u, In u fetched -> u = startUrl \/ in_scope (origin parsed) u) /\
        (forall p, In p (pages r) ->
                   url p = startUrl \/ in_scope (origin parsed) (url p))) /\
  (exists r e',
      scrape 4 Sample.docs_world (Sample.config 200 5)
             "https://example.com/docs/a" Sample.fresh = Returned (r, e') /\
      enqueued e' = ["https://example.com/docs/b"] /\
      drop 5 (requests e')
      = ["https://example.com/docs/a"; "https://example.com/docs/b"]).
Proof.
  split; [| split].
  - intros w base basePath e h.
    destruct (follow_link_spec w base basePath e h) as (new & -> & Hnew).
    simpl. rewrite drop_app_length.
    eapply Forall_impl; [exact Hnew |]. intros u Hu. cbv beta in Hu.
    apply shouldFollow_spec in Hu as (s & Hs & Hscope & Hv).
    inversion Hs; subst. split; assumption.
  - intros fuel w cfg startUrl e e1 r e' Htry Hrun.
    apply scrape_returned in Hrun.
    destruct Hrun as (l & e1' & base & basePath & e0 & Htry' & _ & Hp0 & Hen0 & Hr0
                      & Hmode & Hloop & Hpages & _).
    rewrite Htry in Htry'. inversion Htry'; subst l e1'.
    destruct Hmode as [(_ & Hq0 & parsed & Hparse & ->) | [Hne _]];
      [| contradiction].
    exists parsed.
    apply (crawl_loop_invariant w cfg (origin parsed) basePath
             (fun e =>
                Forall (in_scope (origin parsed)) (enqueued e) /\
                Forall (fun u => u = startUrl \/ in_scope (origin parsed) u) (queue e) /\
                (exists fetched,
                    requests e = requests e1 ++ fetched /\
                    Forall (fun u => u = startUrl \/ in_scope (origin parsed) u) fetched) /\
                Forall (fun p => url p = startUrl \/ in_scope (origin parsed) (url p))
                       (eng_pages e))) in Hloop.
    + destruct Hloop as ((Hen & _ & (fetched & Hreq & Hfetched) & Hps) & _).
      exists fetched. split; [exact Hparse |].
      rewrite Forall_forall in Hen. rewrite Forall_forall in Hfetched.
      rewrite Forall_forall in Hps.
      split; [intros u Hu; apply Hen, list_elem_of_In, Hu |].
      split; [exact Hreq |].
      split; [intros u Hu; apply Hfetched, list_elem_of_In, Hu |].
      intros p Hp. rewrite Hpages in Hp. apply Hps, list_elem_of_In, Hp.
    + intros e2 Hkeep _.
      apply (run_batch_scope w cfg (origin parsed) basePath
               (fun u => u = startUrl \/ in_scope (origin parsed) u)
               (requests e1) e2); [intros u Hu; right; exact Hu | exact Hkeep].
    + rewrite Hen0, Hq0, Hp0. split; [constructor |].
      split; [constructor; [left; reflexivity | constructor] |].
      split; [| constructor].
      exists []. rewrite app_nil_r. split; [exact Hr0 | constructor].
  - eexists. eexists. split; [vm_compute; reflexivity |].
    split; vm_compute; reflexivity.
Qed.

Lemma recursive_crawl_follows_in_scope_witness :
  exists e1 r e',
    tryFetchSitemap Sample.docs_world "https://example.com/docs/a" (reset Sample.fresh)
    = Returned ([], e1) /\
    scrape 4 Sample.docs_world (Sample.config 200 5)
           "https://example.com/docs/a" Sample.fresh = Returned (r, e') /\
    exists parsed fetched,
      url_parse Sample.docs_world "https://example.com/docs/a" = Some parsed /\
      (forall u, In u (enqueued e') -> in_scope (origin parsed) u) /\
      requests e' = requests e1 ++ fetched /\
      (forall u, In u fetched ->
                 u = "https://example.com/docs/a" \/ in_scope (origin parsed) u) /\
      (forall p, In p (pages r) ->
                 url p = "https://example.com/docs/a"
                 \/ in_scope (origin parsed) (url p)).
Proof.
  eexists. eexists. eexists.
  split; [vm_compute; reflexivity |].
  split; [vm_compute; reflexivity |].
  eapply (proj1 (proj2 recursive_crawl_follows_in_scope) 4 Sample.docs_world
            (Sample.config 200 5) "https://example.com/docs/a" Sample.fresh).
  - vm_compute. reflexivity.
  - vm_compute. reflexivity.
Defined.

(** ** Failed requests *)

(** A turn of the loop appends pages only for requests that succeeded. *)
Lemma run_batch_pages_fetched (w : World) (cfg : Config) (base basePath : string)
  (n0 : nat) (e : Engine) :
  let keeps (e : Engine) :=
    n0 <= length (requests e) /\
    Forall (fun p => exists n, n0 <= n /\ http_get w n (url p) (timeout cfg) <> None)
           (eng_pages e) in
  keeps e -> keeps (run_batch w cfg base basePath e).
Proof.
  intros keeps (Hlen & Hpages).
  destruct (run_batch_spec w cfg base basePath e)
    as (batch & rest & sent & ps & new & _ & _ & _ & _ & _ & Hp & Hr & _ & _ & _ & _
        & _ & _ & _ & Hok).
  unfold keeps. split.
  - rewrite Hr, length_app. lia.
  - rewrite Hp. apply Forall_app. split; [exact Hpages |].
    apply Forall_forall. intros p Hin. destruct (Hok p Hin) as (n & Hn & Hget).
    exists n. split; [lia | exact Hget].
Qed.

(** C8: a request for a page that is rejected leaves the state of the crawl as
    it is: no page is appended and the other calls go on.  When the URLs that
    fix the scope parse and the concurrency is positive, [scrape] returns a
    result whatever requests fail, and never throws; every page of the result
    comes from a request that succeeded, so that the result has no page and
    [pageCount] 0 when every request for a page fails. *)
Theorem page_fetch_failures_are_skipped (w : World) (cfg : Config)
  (startUrl : string) (e : Engine) (sitemapPages : list string) (e1 : Engine) :
  (0 < concurrency cfg)%Z ->
  tryFetchSitemap w startUrl (reset e) = Returned (sitemapPages, e1) ->
  scope_parses w sitemapPages ->
  (forall base basePath e0 u,
      scrapePage_resume w cfg base basePath e0 (u, None) = e0) /\
  (exists fuel r e', scrape fuel w cfg startUrl e = Returned (r, e')) /\
  (forall fuel, scrape fuel w cfg startUrl e <> Thrown) /\
  (forall fuel r e',
      scrape fuel w cfg startUrl e = Returned (r, e') ->
      (forall p, In p (pages r) ->
                 exists n, length (requests e1) <= n /\
                           http_get w n (url p) (timeout cfg) <> None) /\
      ((forall n u, length (requests e1) <= n ->
                    http_get w n u (timeout cfg) = None) ->
       pages r = [] /\ pageCount r = 0)).
Proof.
  intros Hc Htry Hscope.
  split; [reflexivity |].
  split; [exact (scrape_returns w cfg startUrl e sitemapPages e1 Hc Htry Hscope) |].
  split.
  - intros fuel. unfold scrape. rewrite Htry.
    destruct (0 <? length sitemapPages)%nat.
    + unfold scrapeFromSitemap. unfold scope_parses in Hscope.
      destruct (first_truthy sitemapPages) as [u |].
      * destruct (url_parse w u) as [p |]; [| contradiction].
        destruct (crawl_loop fuel w cfg (origin p) (getBasePath w u) _); discriminate.
      * destruct (crawl_loop fuel w cfg EmptyString EmptyString _); discriminate.
    + unfold recursiveCrawl. unfold tryFetchSitemap in Htry.
      destruct (url_parse w startUrl) as [parsed |]; [| discriminate].
      destruct (crawl_loop fuel w cfg (origin parsed) (getBasePath w startUrl) _);
        discriminate.
  - intros fuel r e' Hrun.
    apply scrape_returned in Hrun.
    destruct Hrun as (l & e1' & base & basePath & e0 & Htry' & _ & Hp0 & _ & Hr0
                      & _ & Hloop & Hpages & Hcount).
    rewrite <- Hpages in Hcount.
    rewrite Htry in Htry'. inversion Htry'; subst l e1'.
    apply (crawl_loop_invariant w cfg base basePath
             (fun e =>
                length (requests e1) <= length (requests e) /\
                Forall (fun p => exists n, length (requests e1) <= n /\
                                           http_get w n (url p) (timeout cfg) <> None)
                       (eng_pages e))) in Hloop.
    + destruct Hloop as ((_ & Hok) & _). rewrite Forall_forall in Hok.
      assert (Hsucc : forall p, In p (pages r) ->
                 exists n, length (requests e1) <= n /\
                           http_get w n (url p) (timeout cfg) <> None).
      { intros p Hp. rewrite Hpages in Hp. apply Hok, list_elem_of_In, Hp. }
      split; [exact Hsucc |].
      intros Hfail. rewrite Hcount.
      destruct (pages r) as [| p ps]; [split; reflexivity |].
      destruct (Hsucc p (or_introl eq_refl)) as (n & Hn & Hget).
      rewrite (Hfail n (url p) Hn) in Hget. contradiction.
    + intros e2 Hkeep _.
      apply (run_batch_pages_fetched w cfg base basePath (length (requests e1)) e2 Hkeep).
    + rewrite Hp0, Hr0. split; [lia | constructor].
Qed.

Lemma page_fetch_failures_are_skipped_witness :
  exists e1 r e',
    tryFetchSitemap Sample.dead_world "https://example.com/docs/a" (reset Sample.fresh)
    = Returned ([], e1) /\
    scrape 2 Sample.dead_world (Sample.config 200 5)
           "https://example.com/docs/a" Sample.fresh = Returned (r, e') /\
    pages r = [] /\ pageCount r = 0.
Proof.
  eexists. eexists. eexists.
  split; [vm_compute; reflexivity |].
  split; [vm_compute; reflexivity |].
  refine (proj2 (proj2 (proj2 (proj2
            (page_fetch_failures_are_skipped Sample.dead_world (Sample.config 200 5)
               "https://example.com/docs/a" Sample.fresh [] _ _ _ _)))
            2 _ _ _) _).
  - reflexivity.
  - vm_compute. reflexivity.
  - exact I.
  - vm_compute. reflexivity.
  - intros n u _. reflexivity.
Defined.

(** * Further properties of the scraper *)

(** ** Strings *)

Lemma str_app_cons (c : ascii) (s t : string) :
  String c s +:+ t = String c (s +:+ t).
Proof. reflexivity. Qed.

Lemma str_app_nil_r (s : string) : s +:+ EmptyString = s.
Proof.
  induction s as [| c s IH]; [reflexivity |]. rewrite str_app_cons, IH. reflexivity.
Qed.

Lemma str_app_assoc (a b c : string) : (a +:+ b) +:+ c = a +:+ (b +:+ c).
Proof.
  induction a as [| x a IH]; [reflexivity |]. rewrite !str_app_cons, IH. reflexivity.
Qed.

Lemma rev_onto_app (s acc : string) :
  JsString.rev_onto s acc = JsString.reverse s +:+ acc.
Proof.
  unfold JsString.reverse. revert acc. induction s as [| c s IH]; intros acc.
  - reflexivity.
  - simpl. rewrite (IH (String c acc)), (IH (String c EmptyString)).
    rewrite str_app_assoc. reflexivity.
Qed.

Lemma reverse_cons (c : ascii) (s : string) :
  JsString.reverse (String c s) = JsString.reverse s +:+ String c EmptyString.
Proof. unfold JsString.reverse at 1. simpl. apply rev_onto_app. Qed.

Lemma reverse_app (a b : string) :
  JsString.reverse (a +:+ b) = JsString.reverse b +:+ JsString.reverse a.
Proof.
  induction a as [| c a IH].
  - change (EmptyString +:+ b) with b. rewrite str_app_nil_r. reflexivity.
  - rewrite str_app_cons, !reverse_cons, IH, str_app_assoc. reflexivity.
Qed.

Lemma reverse_involutive (s : string) : JsString.reverse (JsString.reverse s) = s.
Proof.
  induction s as [| c s IH]; [reflexivity |].
  rewrite reverse_cons, reverse_app, IH. reflexivity.
Qed.

Lemma reverse_empty (s : string) : JsString.reverse s = EmptyString -> s = EmptyString.
Proof.
  intros H. rewrite <- (reverse_involutive s), H. reflexivity.
Qed.

(** [trim_start] removes a prefix of white space and nothing else. *)
Lemma trim_start_split (s : string) :
  exists a, all_ws a = true /\ s = a +:+ JsString.trim_start s.
Proof.
  induction s as [| c s (a & Ha & Hs)].
  - exists EmptyString. split; reflexivity.
  - simpl. destruct (JsString.is_ws c) eqn:Hc.
    + exists (String c a). split; [simpl; rewrite Hc, Ha; reflexivity |].
      rewrite str_app_cons, <- Hs. reflexivity.
    + exists EmptyString. split; reflexivity.
Qed.

Lemma trim_start_clean (s : string) :
  JsString.trim_start s = EmptyString \/ starts_with_token (JsString.trim_start s) = true.
Proof.
  induction s as [| c s IH]; [left; reflexivity |].
  simpl. destruct (JsString.is_ws c) eqn:Hc; [exact IH |].
  right. simpl. rewrite Hc. reflexivity.
Qed.

Lemma trim_start_fixed (s : string) :
  starts_with_token s = true -> JsString.trim_start s = s.
Proof.
  destruct s as [| c s]; [discriminate |]. simpl.
  destruct (JsString.is_ws c); [discriminate | reflexivity].
Qed.

Lemma trim_start_app_ws (a s : string) :
  all_ws a = true -> JsString.trim_start (a +:+ s) = JsString.trim_start s.
Proof.
  induction a as [| c a IH]; intros Ha; [reflexivity |].
  simpl in Ha. apply andb_true_iff in Ha as [Hc Ha].
  rewrite str_app_cons. simpl. rewrite Hc. apply IH, Ha.
Qed.

Lemma trim_start_idem (s : string) :
  JsString.trim_start (JsString.trim_start s) = JsString.trim_start s.
Proof.
  destruct (trim_start_clean s) as [-> | H]; [reflexivity |].
  apply trim_start_fixed, H.
Qed.

Lemma trim_start_all_ws (s : string) :
  all_ws s = true -> JsString.trim_start s = EmptyString.
Proof.
  induction s as [| c s IH]; intros H; [reflexivity |].
  simpl in H. apply andb_true_iff in H as [Hc Hs]. simpl. rewrite Hc. apply IH, Hs.
Qed.

Lemma starts_with_token_app (a b : string) :
  a <> EmptyString -> starts_with_token (a +:+ b) = starts_with_token a.
Proof. destruct a; [contradiction | reflexivity]. Qed.

Lemma ends_ws_from_app (a b : string) (x : bool) :
  ends_ws_from (a +:+ b) x = ends_ws_from b (ends_ws_from a x).
Proof.
  revert x. induction a as [| c a IH]; intros x; [reflexivity |].
  rewrite str_app_cons. simpl. apply IH.
Qed.

Lemma ends_ws_from_nonempty (s : string) (x y : bool) :
  s <> EmptyString -> ends_ws_from s x = ends_ws_from s y.
Proof. destruct s; [contradiction | reflexivity]. Qed.

(** A string that is not empty begins, read backwards, with a token exactly
    when it does not end in white space. *)
Lemma reverse_starts_with_token (s : string) :
  s <> EmptyString ->
  starts_with_token (JsString.reverse s) = negb (ends_with_ws s).
Proof.
  induction s as [| c s IH]; [contradiction |]. intros _.
  rewrite reverse_cons. unfold ends_with_ws. simpl.
  destruct s as [| d s].
  - reflexivity.
  - rewrite starts_with_token_app.
    + rewrite IH by discriminate. unfold ends_with_ws.
      rewrite (ends_ws_from_nonempty (String d s) (JsString.is_ws c) false)
        by discriminate.
      reflexivity.
    + intros H. apply reverse_empty in H. discriminate.
Qed.

(** [trim] leaves the empty string, or a string with no white space at
    either end. *)
Lemma trim_clean (s : string) :
  JsString.trim s = EmptyString \/
  (starts_with_token (JsString.trim s) = true /\ ends_with_ws (JsString.trim s) = false).
Proof.
  unfold JsString.trim.
  set (u := JsString.trim_start s).
  set (t := JsString.trim_start (JsString.reverse u)).
  destruct (trim_start_clean (JsString.reverse u)) as [Ht | Ht]; fold t in Ht.
  - left. rewrite Ht. reflexivity.
  - right. assert (Hne : t <> EmptyString) by (intros H; rewrite H in Ht; discriminate).
    assert (Hrne : JsString.reverse t <> EmptyString).
    { intros H. apply reverse_empty in H. contradiction. }
    split.
    + destruct (trim_start_split (JsString.reverse u)) as (a & Ha & Hu). fold t in Hu.
      assert (Hu' : u = JsString.reverse t +:+ JsString.reverse a).
      { rewrite <- (reverse_involutive u), Hu, reverse_app. reflexivity. }
      destruct (trim_start_clean s) as [Hs | Hs]; fold u in Hs.
      * rewrite Hs in Hu'. destruct (JsString.reverse t); [contradiction | discriminate].
      * rewrite Hu', starts_with_token_app in Hs by exact Hrne. exact Hs.
    + pose proof (reverse_starts_with_token (JsString.reverse t) Hrne) as H.
      rewrite reverse_involutive, Ht in H.
      destruct (ends_with_ws (JsString.reverse t)); [discriminate | reflexivity].
Qed.

(** [trim] changes nothing in a string with no white space at either end. *)
Lemma trim_fixed (s : string) :
  starts_with_token s = true -> ends_with_ws s = false -> JsString.trim s = s.
Proof.
  intros Hs He. unfold JsString.trim. rewrite (trim_start_fixed s Hs).
  assert (Hne : s <> EmptyString) by (intros ->; discriminate).
  rewrite trim_start_fixed.
  - apply reverse_involutive.
  - rewrite reverse_starts_with_token by exact Hne. rewrite He. reflexivity.
Qed.

Lemma trim_all_ws (s : string) : all_ws s = true -> JsString.trim s = EmptyString.
Proof.
  intros H. unfold JsString.trim. rewrite (trim_start_all_ws s H). reflexivity.
Qed.

Lemma trim_trim_start (s : string) :
  JsString.trim (JsString.trim_start s) = JsString.trim s.
Proof. unfold JsString.trim. rewrite trim_start_idem. reflexivity. Qed.

(** ** Request headers *)

Lemma strip_prefix_ci_app (p q v : string) :
  strip_prefix_ci p q = Some EmptyString -> strip_prefix_ci p (q +:+ v) = Some v.
Proof.
  revert q. induction p as [| a p IH]; intros q H.
  - simpl in H. inversion H; subst. reflexivity.
  - destruct q as [| b q]; [discriminate |]. rewrite str_app_cons. simpl in *.
    destruct (Ascii.eqb (upper a) (upper b)); [apply IH, H | discriminate].
Qed.

Lemma strip_prefix_ci_nonempty (p q : string) (r : string) :
  p <> EmptyString -> strip_prefix_ci p q = Some r -> q <> EmptyString.
Proof.
  intros Hp H ->. destruct p; [contradiction | discriminate].
Qed.

(** X1: the prefix [Authorization:] of an [authHeader] is optional and its
    case does not matter: after the prefix, in any case, followed by [v], the
    header sent is the trimmed [v]; it is the header sent for [v] alone, when
    [v] is not empty and does not begin with the prefix itself. *)
Theorem getHeaders_authorization_prefix (q v : string) (k : option string) :
  strip_prefix_ci "Authorization:" q = Some EmptyString ->
  getHeaders {| authHeader := Some (q +:+ v); cookies := k |}
  = [("User-Agent", "Super-MCP-Bot/1.0"); ("Authorization", JsString.trim v)]
    ++ match k with
       | Some c => if JsString.is_empty c then [] else [("Cookie", c)]
       | None => []
       end /\
  (v <> EmptyString -> strip_prefix_ci "Authorization:" v = None ->
   getHeaders {| authHeader := Some (q +:+ v); cookies := k |}
   = getHeaders {| authHeader := Some v; cookies := k |}).
Proof.
  intros Hq.
  assert (Hne : JsString.is_empty (q +:+ v) = false).
  { destruct q as [| b q]; [discriminate | reflexivity]. }
  assert (Hfirst :
            getHeaders {| authHeader := Some (q +:+ v); cookies := k |}
            = [("User-Agent", "Super-MCP-Bot/1.0"); ("Authorization", JsString.trim v)]
              ++ match k with
                 | Some c => if JsString.is_empty c then [] else [("Cookie", c)]
                 | None => []
                 end).
  { unfold getHeaders, strip_authorization. cbn [authHeader cookies].
    rewrite Hne, (strip_prefix_ci_app _ _ v Hq), trim_trim_start. reflexivity. }
  split; [exact Hfirst |].
  intros Hv Hnone. rewrite Hfirst.
  unfold getHeaders, strip_authorization. cbn [authHeader cookies].
  rewrite Hnone. destruct v; [contradiction | reflexivity].
Qed.

Lemma getHeaders_authorization_prefix_witness :
  getHeaders {| authHeader := Some ("authorization:" +:+ "  Bearer abc ");
                cookies := Some "session=xyz" |}
  = [("User-Agent", "Super-MCP-Bot/1.0"); ("Authorization", "Bearer abc");
     ("Cookie", "session=xyz")] /\
  getHeaders {| authHeader := Some ("authorization:" +:+ "  Bearer abc ");
                cookies := Some "session=xyz" |}
  = getHeaders {| authHeader := Some "  Bearer abc "; cookies := Some "session=xyz" |}.
Proof.
  split.
  - apply (proj1 (getHeaders_authorization_prefix "authorization:" "  Bearer abc "
                    (Some "session=xyz") eq_refl)).
  - apply (proj2 (getHeaders_authorization_prefix "authorization:" "  Bearer abc "
                    (Some "session=xyz") eq_refl)).
    + discriminate.
    + reflexivity.
Defined.

(** White space is not the letter A. *)
Lemma ws_is_not_letter_a (c : ascii) :
  JsString.is_ws c = true -> Ascii.eqb (upper "A") (upper c) = false.
Proof.
  destruct c as [[] [] [] [] [] [] [] []]; vm_compute; congruence.
Qed.

(** X2: an [authHeader] that is not empty but holds white space only, alone
    or after the prefix, still sends an [Authorization] header, whose value
    is the empty string. *)
Theorem getHeaders_blank_authorization (a : string) (k : option string) :
  a <> EmptyString ->
  (all_ws a = true \/
   exists q v, a = q +:+ v /\ strip_prefix_ci "Authorization:" q = Some EmptyString /\
               all_ws v = true) ->
  In ("Authorization", EmptyString) (getHeaders {| authHeader := Some a; cookies := k |}).
Proof.
  intros Ha Hblank.
  assert (Hvalue : JsString.trim (strip_authorization a) = EmptyString).
  { destruct Hblank as [Hws | (q & v & -> & Hq & Hws)].
    - unfold strip_authorization.
      destruct (strip_prefix_ci "Authorization:" a) as [r |] eqn:Hr.
      + destruct a as [| c a]; [discriminate |]. simpl in Hws.
        apply andb_true_iff in Hws as [Hc _].
        change (strip_prefix_ci "Authorization:" (String c a))
          with (if Ascii.eqb (upper "A") (upper c)
                then strip_prefix_ci "uthorization:" a else None) in Hr.
        rewrite (ws_is_not_letter_a c Hc) in Hr. discriminate.
      + apply trim_all_ws, Hws.
    - unfold strip_authorization. rewrite (strip_prefix_ci_app _ _ v Hq).
      rewrite trim_trim_start. apply trim_all_ws, Hws. }
  unfold getHeaders. cbn [authHeader cookies].
  destruct a as [| c a]; [contradiction |]. cbn [JsString.is_empty].
  rewrite Hvalue. apply in_or_app. right. apply in_or_app. left. left. reflexivity.
Qed.

Lemma getHeaders_blank_authorization_witness :
  In ("Authorization", EmptyString)
     (getHeaders {| authHeader := Some "Authorization:  "; cookies := None |}).
Proof.
  apply (getHeaders_blank_authorization "Authorization:  " None).
  - discriminate.
  - right. exists "Authorization:", "  ". repeat split; reflexivity.
Defined.

(** ** Titles *)

(** X3: the title of a page is empty or has no white space at either end;
    when the first heading holds white space only, the title is empty, also
    when the document has a title element. *)
Theorem title_of_blank_heading (w : World) (u : string) (doc : Document) (e : Engine) :
  (title (make_page w u doc e) = EmptyString \/
   (starts_with_token (title (make_page w u doc e)) = true /\
    ends_with_ws (title (make_page w u doc e)) = false)) /\
  (doc_h1 doc <> EmptyString -> all_ws (doc_h1 doc) = true ->
   title (make_page w u doc e) = EmptyString).
Proof.
  split.
  - apply trim_clean.
  - intros Hne Hws. unfold make_page, JsString.or_else. cbn [title].
    destruct (doc_h1 doc) as [| c h] eqn:Hh; [contradiction |].
    cbn [JsString.is_empty]. apply trim_all_ws, Hws.
Qed.

Lemma title_of_blank_heading_witness :
  title (make_page Sample.docs_world "https://example.com/docs/a"
           Fixture.blank_heading Sample.fresh)
  = EmptyString.
Proof.
  apply (proj2 (title_of_blank_heading Sample.docs_world "https://example.com/docs/a"
                  Fixture.blank_heading Sample.fresh)).
  - discriminate.
  - reflexivity.
Defined.

(** ** The content region *)

(** X4: the content region is the first match of the first selector that
    qualifies: a region is chosen exactly when the selectors before it do not
    qualify and its trimmed text has more than 100 characters; when no
    selector of the list qualifies the Markdown is that of the whole
    document. *)
Theorem select_content_first_qualifying (w : World) (doc : Document) :
  (forall selectors el,
      select_content doc selectors = Some el <->
      exists before selector after,
        selectors = before ++ selector :: after /\
        Forall (fun s => qualifies doc s = false) before /\
        doc_first doc selector = Some el /\
        (100 < String.length (JsString.trim (el_text el)))%nat) /\
  (Forall (fun s => qualifies doc s = false) contentSelectors ->
   markdown_of w doc = turndown w (doc_html doc)).
Proof.
  assert (Hchar : forall selectors el,
      select_content doc selectors = Some el <->
      exists before selector after,
        selectors = before ++ selector :: after /\
        Forall (fun s => qualifies doc s = false) before /\
        doc_first doc selector = Some el /\
        (100 < String.length (JsString.trim (el_text el)))%nat).
  { induction selectors as [| s rest IH]; intros el.
    - simpl. split; [discriminate |].
      intros (before & selector & after & Heq & _). destruct before; discriminate.
    - simpl. unfold qualifies in *.
      destruct (doc_first doc s) as [el0 |] eqn:Hfirst.
      + destruct (Nat.ltb_spec 100 (String.length (JsString.trim (el_text el0))))
          as [Hlong | Hshort].
        * split.
          -- intros H. inversion H; subst. exists [], s, rest.
             repeat split; [constructor | exact Hfirst | exact Hlong].
          -- intros (before & selector & after & Heq & Hbefore & Hsel & Hlen).
             destruct before as [| b before].
             ++ simpl in Heq. inversion Heq; subst. congruence.
             ++ simpl in Heq. inversion Heq; subst.
                apply Forall_cons in Hbefore as [Hb _]. cbv beta in Hb.
                rewrite Hfirst in Hb. apply Nat.ltb_lt in Hlong. congruence.
        * rewrite IH. split.
          -- intros (before & selector & after & -> & Hbefore & Hsel & Hlen).
             exists (s :: before), selector, after.
             repeat split; try assumption. constructor; [| exact Hbefore].
             cbv beta. rewrite Hfirst. apply Nat.ltb_ge. exact Hshort.
          -- intros (before & selector & after & Heq & Hbefore & Hsel & Hlen).
             destruct before as [| b before].
             ++ simpl in Heq. inversion Heq; subst.
                rewrite Hfirst in Hsel. inversion Hsel; subst. lia.
             ++ simpl in Heq. inversion Heq; subst.
                apply Forall_cons in Hbefore as [_ Hbefore].
                exists before, selector, after. repeat split; assumption.
      + rewrite IH. split.
        * intros (before & selector & after & -> & Hbefore & Hsel & Hlen).
          exists (s :: before), selector, after.
          repeat split; try assumption. constructor; [| exact Hbefore].
          cbv beta. rewrite Hfirst. reflexivity.
        * intros (before & selector & after & Heq & Hbefore & Hsel & Hlen).
          destruct before as [| b before].
          -- simpl in Heq. inversion Heq; subst. congruence.
          -- simpl in Heq. inversion Heq; subst.
             apply Forall_cons in Hbefore as [_ Hbefore].
             exists before, selector, after. repeat split; assumption. }
  split; [exact Hchar |].
  intros Hnone. unfold markdown_of.
  destruct (select_content doc contentSelectors) as [el |] eqn:Hsel; [| reflexivity].
  apply Hchar in Hsel as (before & selector & after & Heq & _ & Hfirst & Hlen).
  rewrite Forall_forall in Hnone.
  assert (Hq : qualifies doc selector = false).
  { apply Hnone. rewrite Heq. apply elem_of_app. right. left. }
  unfold qualifies in Hq. rewrite Hfirst in Hq. apply Nat.ltb_lt in Hlen. congruence.
Qed.

Lemma select_content_first_qualifying_witness :
  markdown_of Sample.docs_world Fixture.short_main = "<html>whole</html>".
Proof.
  exact (proj2 (select_content_first_qualifying Sample.docs_world Fixture.short_main)
           ltac:(repeat constructor)).
Defined.

(** ** The link resolver *)

Lemma includes_char (c : ascii) (s : string) :
  JsString.includes s (String c EmptyString) = has_char c s.
Proof.
  unfold JsString.includes. induction s as [| b s IH]; [reflexivity |].
  simpl. destruct (ascii_dec c b) as [-> | Hne].
  - rewrite Ascii.eqb_refl.
    destruct s; reflexivity.
  - destruct (Ascii.eqb_spec b c) as [-> | _]; [contradiction |]. simpl.
    rewrite <- IH. destruct (index 0 (String c EmptyString) s); reflexivity.
Qed.

Lemma has_char_app (c : ascii) (a b : string) :
  has_char c (a +:+ b) = has_char c a || has_char c b.
Proof.
  induction a as [| x a IH]; [reflexivity |].
  rewrite str_app_cons. simpl. rewrite IH. apply orb_assoc.
Qed.

Lemma before_char_free (c : ascii) (s : string) :
  has_char c (JsString.before_char c s) = false.
Proof.
  induction s as [| b s IH]; [reflexivity |]. simpl.
  destruct (Ascii.eqb b c) eqn:Hb; [reflexivity |]. simpl. rewrite Hb. exact IH.
Qed.

Lemma startsWith_app (base s : string) : JsString.startsWith (base +:+ s) base = true.
Proof.
  unfold JsString.startsWith. induction base as [| c base IH].
  - destruct s; reflexivity.
  - rewrite str_app_cons. simpl. destruct (ascii_dec c c); [exact IH | contradiction].
Qed.

Lemma startsWith_char (c : ascii) (h : string) :
  JsString.startsWith h (String c EmptyString) = true -> exists h', h = String c h'.
Proof.
  destruct h as [| b h]; [discriminate |]. unfold JsString.startsWith.
  change (String.prefix (String c EmptyString) (String b h))
    with (if ascii_dec c b then String.prefix EmptyString h else false).
  destruct (ascii_dec c b) as [-> | _]; [| discriminate].
  intros _. exists h. reflexivity.
Qed.

(** X5: a resolved link has no fragment: when the origin holds no [#], no URL
    that [resolveUrl] returns holds one. *)
Theorem resolveUrl_drops_fragment (w : World) (h base basePath u : string) :
  has_char "#" base = false ->
  resolveUrl w h base basePath = Some u ->
  has_char "#" u = false.
Proof.
  intros Hbase. unfold resolveUrl.
  destruct (JsString.startsWith h "http").
  - intros H. inversion H; subst. apply before_char_free.
  - destruct (JsString.startsWith h "/").
    + intros H. inversion H; subst.
      rewrite has_char_app, Hbase, before_char_free. reflexivity.
    + destruct (url_parse_rel w h (base +:+ basePath)) as [p |]; [| discriminate].
      intros H. inversion H; subst. apply before_char_free.
Qed.

Lemma resolveUrl_drops_fragment_witness :
  resolveUrl Sample.docs_world "/docs/b#install" "https://example.com" "/docs"
  = Some "https://example.com/docs/b" /\
  has_char "#" "https://example.com/docs/b" = false.
Proof.
  split; [reflexivity |].
  apply (resolveUrl_drops_fragment Sample.docs_world "/docs/b#install"
           "https://example.com" "/docs").
  - reflexivity.
  - reflexivity.
Defined.

(** X6: a link that begins with a slash is joined to the origin as it is,
    whatever the base path and the URL parser are, and the result is under
    the origin: whether it is followed depends only on the visited set and
    the excluded patterns. *)
Theorem resolveUrl_root_relative (w : World) (e : Engine) (h base basePath : string) :
  JsString.startsWith h "/" = true ->
  resolveUrl w h base basePath = Some (base +:+ JsString.before_char "#" h) /\
  (shouldFollow e (resolveUrl w h base basePath) base = true <->
   base +:+ JsString.before_char "#" h <> EmptyString /\
   (base +:+ JsString.before_char "#" h ∉ visited e) /\
   forall pat, In pat excludePatterns ->
               JsString.includes (base +:+ JsString.before_char "#" h) pat = false).
Proof.
  intros Hslash.
  assert (Hres : resolveUrl w h base basePath
                 = Some (base +:+ JsString.before_char "#" h)).
  { apply startsWith_char in Hslash as (h' & ->). unfold resolveUrl.
    assert (Hhttp : JsString.startsWith (String "/" h') "http" = false).
    { unfold JsString.startsWith.
      change (String.prefix "http" (String "/" h'))
        with (if ascii_dec "h" "/" then String.prefix "ttp" h' else false).
      destruct (ascii_dec "h" "/"); [discriminate | reflexivity]. }
    assert (Hroot : JsString.startsWith (String "/" h') "/" = true).
    { unfold JsString.startsWith.
      change (String.prefix "/" (String "/" h'))
        with (if ascii_dec "/" "/" then String.prefix EmptyString h' else false).
      destruct (ascii_dec "/" "/"); [destruct h'; reflexivity | contradiction]. }
    rewrite Hhttp, Hroot. reflexivity. }
  split; [exact Hres |]. rewrite Hres, shouldFollow_spec. unfold in_scope. split.
  - intros (s & Hs & (Hne & _ & Hpat) & Hv). inversion Hs; subst.
    repeat split; assumption.
  - intros (Hne & Hv & Hpat). eexists. split; [reflexivity |].
    repeat split; try assumption. apply startsWith_app.
Qed.

Lemma resolveUrl_root_relative_witness :
  resolveUrl Sample.docs_world "/docs/b#install" "https://example.com" "/docs"
  = Some ("https://example.com" +:+ JsString.before_char "#" "/docs/b#install").
Proof.
  apply (proj1 (resolveUrl_root_relative Sample.docs_world Sample.fresh
                  "/docs/b#install" "https://example.com" "/docs" eq_refl)).
Defined.

(** X7: the test of the origin is a test of a prefix of the string: every URL
    that continues the origin, in whatever way, is followed when it is not
    visited and holds no excluded pattern; a host whose name continues the
    name of the origin passes. *)
Theorem shouldFollow_accepts_any_continuation (e : Engine) (base rest : string) :
  base +:+ rest <> EmptyString ->
  (base +:+ rest ∉ visited e) ->
  (forall pat, In pat excludePatterns -> JsString.includes (base +:+ rest) pat = false) ->
  shouldFollow e (Some (base +:+ rest)) base = true.
Proof.
  intros Hne Hv Hpat. apply shouldFollow_spec. eexists. split; [reflexivity |].
  split; [| exact Hv]. split; [exact Hne |]. split; [apply startsWith_app | exact Hpat].
Qed.

Lemma shouldFollow_accepts_any_continuation_witness :
  shouldFollow Sample.fresh (Some ("https://example.com" +:+ ".evil.org/docs"))
               "https://example.com" = true.
Proof.
  apply (shouldFollow_accepts_any_continuation Sample.fresh
           "https://example.com" ".evil.org/docs").
  - discriminate.
  - vm_compute. intros H. inversion H.
  - intros pat Hpat. simpl in Hpat.
    repeat (destruct Hpat as [<- | Hpat]; [vm_compute; reflexivity |]).
    contradiction.
Defined.

(** ** The base path *)

Lemma before_last_char_join (c : ascii) (d f : string) :
  has_char c f = false ->
  JsString.before_last_char c (d +:+ String c f) = d.
Proof.
  intros Hf. induction d as [| x d IH].
  - change (EmptyString +:+ String c f) with (String c f). simpl.
    rewrite includes_char, Hf. reflexivity.
  - rewrite str_app_cons. simpl. rewrite includes_char, has_char_app. simpl.
    rewrite Ascii.eqb_refl, orb_true_r. rewrite IH. reflexivity.
Qed.

(** X8: the base path of a URL is the directory of its path: for a path
    [d/f], where [f] holds no slash, [getBasePath] returns [d]; a path that
    ends in a slash gives the path without that slash. *)
Theorem getBasePath_directory (w : World) (u : string) (p : ParsedUrl) (d f : string) :
  url_parse w u = Some p ->
  pathname p = d +:+ String "/" f ->
  has_char "/" f = false ->
  getBasePath w u = d.
Proof.
  intros Hp Hpath Hf. unfold getBasePath. rewrite Hp, Hpath.
  apply before_last_char_join, Hf.
Qed.

Lemma getBasePath_directory_witness :
  getBasePath Sample.docs_world "https://example.com/docs/guide/intro" = "/docs/guide".
Proof.
  eapply (getBasePath_directory Sample.docs_world
            "https://example.com/docs/guide/intro" _ "/docs/guide" "intro").
  - reflexivity.
  - reflexivity.
  - reflexivity.
Defined.

(** ** The requests of the sitemap resolver *)

Lemma candidate_answer_truthy (w : World) (n : nat) (c : string) :
  Forall (fun u => u <> EmptyString) (candidate_answer w n c).
Proof.
  unfold candidate_answer.
  destruct (http_get w n c 3000) as [data |]; [| constructor].
  destruct (load_xml w data) as [doc |]; [| constructor].
  apply Forall_forall. intros u Hu. apply list_elem_of_In in Hu.
  apply in_app_or in Hu as [Hu | Hu]; apply (collect_locs_truthy _ _ Hu).
Qed.

Lemma probe_sitemaps_requests (w : World) (cs : list string) (e : Engine)
  (l : list string) (e' : Engine) :
  probe_sitemaps w cs e = (l, e') ->
  exists k,
    k <= length cs /\ requests e' = requests e ++ firstn k cs /\
    (l = [] -> k = length cs) /\
    (l <> [] -> exists c, nth_error cs (Nat.pred k) = Some c /\ 0 < k /\
                          l = candidate_answer w (length (requests e) + Nat.pred k) c) /\
    Forall (fun u => u <> EmptyString) l.
Proof.
  revert e. induction cs as [| c cs IH]; intros e Hp.
  - simpl in Hp. inversion Hp; subst. exists 0. simpl. rewrite app_nil_r.
    repeat split; try reflexivity; try constructor. intros H. contradiction.
  - rewrite probe_sitemaps_step in Hp.
    destruct (candidate_answer w (length (requests e)) c) as [| u us] eqn:Hans.
    + apply IH in Hp as (k & Hk & Hreq & Hnil & Hsome & Hall).
      exists (S k). simpl in Hreq |- *. split; [lia |].
      split; [rewrite Hreq, <- app_assoc; reflexivity |].
      split; [intros H; rewrite (Hnil H); reflexivity |].
      split; [| exact Hall].
      intros Hne. destruct (Hsome Hne) as (c' & Hnth & Hpos & Hl).
      exists c'. destruct k as [| k]; [lia |]. simpl in Hnth |- *.
      split; [exact Hnth |]. split; [lia |].
      simpl in Hl. rewrite length_app in Hl. simpl in Hl.
      rewrite Hl. f_equal. lia.
    + inversion Hp; subst. exists 1. simpl. split; [lia |].
      split; [reflexivity |]. split; [discriminate |].
      split.
      * intros _. exists c. split; [reflexivity |]. split; [lia |].
        rewrite Nat.add_0_r. symmetry. exact Hans.
      * rewrite <- Hans. apply candidate_answer_truthy.
Qed.

(** X9: the sitemap resolver sends at most five requests, to its candidates
    in order.  The list it returns holds no empty string; when the list is
    not empty it is the answer of the last candidate asked, and when it is
    empty all five candidates have been asked. *)
Theorem tryFetchSitemap_requests (w : World) (b : string) (e : Engine)
  (l : list string) (e' : Engine) :
  tryFetchSitemap w b e = Returned (l, e') ->
  exists parsed k,
    url_parse w b = Some parsed /\ k <= 5 /\
    requests e' = requests e ++ firstn k (sitemapUrls b parsed) /\
    (l = [] -> k = 5) /\
    (l <> [] ->
     exists c, nth_error (sitemapUrls b parsed) (Nat.pred k) = Some c /\ 0 < k /\
               l = candidate_answer w (length (requests e) + Nat.pred k) c) /\
    (forall u, In u l -> u <> EmptyString).
Proof.
  unfold tryFetchSitemap. destruct (url_parse w b) as [parsed |]; [| discriminate].
  intros H.
  assert (Hp : probe_sitemaps w (sitemapUrls b parsed) e = (l, e')) by congruence.
  apply probe_sitemaps_requests in Hp.
  destruct Hp as (k & Hk & Hreq & Hnil & Hsome & Hall).
  exists parsed, k. split; [reflexivity |]. split; [exact Hk |].
  split; [exact Hreq |]. split; [exact Hnil |]. split; [exact Hsome |].
  intros u Hu. rewrite Forall_forall in Hall. apply Hall, list_elem_of_In, Hu.
Qed.

Lemma tryFetchSitemap_requests_witness :
  exists e' parsed k,
    tryFetchSitemap Sample.flaky_world "https://example.com/docs" Sample.fresh
    = Returned (["https://example.com/docs/a"], e') /\
    url_parse Sample.flaky_world "https://example.com/docs" = Some parsed /\ k <= 5 /\
    requests e'
    = requests Sample.fresh ++ firstn k (sitemapUrls "https://example.com/docs" parsed).
Proof.
  eexists.
  destruct (tryFetchSitemap_requests Sample.flaky_world "https://example.com/docs"
              Sample.fresh ["https://example.com/docs/a"] _ ltac:(vm_compute; reflexivity))
    as (parsed & k & Hp & Hk & Hreq & _).
  exists parsed, k. split; [vm_compute; reflexivity |].
  split; [exact Hp |]. split; [exact Hk | exact Hreq].
Defined.

(** ** The seed of a sitemap crawl *)

Lemma filter_sublist {A : Type} (f : A -> bool) (l : list A) :
  sublist (List.filter f l) l.
Proof.
  induction l as [| x l IH]; simpl.
  - constructor.
  - destruct (f x); [apply sublist_skip | apply sublist_cons]; exact IH.
Qed.

Lemma slice0_take {A : Type} (stop : Z) (a : list A) :
  exists n, slice0 stop a = firstn n a /\
            ((0 <= stop)%Z -> n = Z.to_nat (Z.min stop (Z.of_nat (length a)))) /\
            ((stop < 0)%Z -> n = length a - Z.to_nat (- stop)).
Proof.
  unfold slice0. destruct (Z.ltb_spec stop 0) as [Hneg | Hpos].
  - eexists. split; [reflexivity |]. split; intros; lia.
  - eexists. split; [reflexivity |]. split; intros; lia.
Qed.

(** X10: the seed of a sitemap crawl holds entries of the sitemap only, in
    the order of the sitemap, each accepted by the in-scope test.  With a
    budget that is not negative it holds at most [maxPages] entries, and all
    the accepted entries when there are no more than [maxPages] of them. *)
Theorem sitemap_seed_spec (cfg : Config) (e : Engine) (base : string)
  (urls : list string) :
  sublist (sitemap_seed cfg e base urls) urls /\
  (forall u, In u (sitemap_seed cfg e base urls) ->
             In u urls /\ in_scope base u /\ (u ∉ visited e)) /\
  ((0 <= maxPages cfg)%Z ->
   (Z.of_nat (length (sitemap_seed cfg e base urls)) <= maxPages cfg)%Z /\
   ((Z.of_nat (length (List.filter (fun u => shouldFollow e (Some u) base) urls))
     <= maxPages cfg)%Z ->
    sitemap_seed cfg e base urls
    = List.filter (fun u => shouldFollow e (Some u) base) urls)).
Proof.
  unfold sitemap_seed.
  set (accepted := List.filter (fun u => shouldFollow e (Some u) base) urls).
  destruct (slice0_take (maxPages cfg) accepted) as (n & -> & Hpos & _).
  split; [| split].
  - etransitivity; [apply sublist_take | apply filter_sublist].
  - intros u Hu. apply list_elem_of_In, (subseteq_take n accepted), list_elem_of_In in Hu.
    unfold accepted in Hu.
    apply filter_In in Hu as [Hin Hf].
    apply shouldFollow_spec in Hf as (s & Hs & Hscope & Hv). inversion Hs; subst.
    split; [exact Hin |]. split; [exact Hscope | exact Hv].
  - intros Hm. rewrite (Hpos Hm). split.
    + rewrite length_firstn. lia.
    + intros Hfew. apply firstn_all2. lia.
Qed.

Lemma sitemap_seed_spec_witness :
  (Z.of_nat (length (sitemap_seed (Sample.config 2 5) Sample.fresh "https://example.com"
                       [ "https://example.com/docs/a"; "https://other.org/x";
                         "https://example.com/blog/post"; "https://example.com/docs/b";
                         "https://example.com/docs/c" ])) <= 2)%Z.
Proof.
  apply (proj2 (proj2 (sitemap_seed_spec (Sample.config 2 5) Sample.fresh
                         "https://example.com"
                         [ "https://example.com/docs/a"; "https://other.org/x";
                           "https://example.com/blog/post"; "https://example.com/docs/b";
                           "https://example.com/docs/c" ]))).
  vm_compute. discriminate.
Defined.

(** ** A budget that is not positive *)

(** X11: with a page budget of zero or less the loop is never entered: when
    the URLs that fix the scope parse, [scrape] returns at once a result
    without pages, and no page is requested. *)
Theorem scrape_without_budget (w : World) (cfg : Config) (startUrl : string)
  (e : Engine) (sitemapPages : list string) (e1 : Engine) :
  (maxPages cfg <= 0)%Z ->
  tryFetchSitemap w startUrl (reset e) = Returned (sitemapPages, e1) ->
  scope_parses w sitemapPages ->
  exists r e',
    scrape 1 w cfg startUrl e = Returned (r, e') /\
    pages r = [] /\ pageCount r = 0 /\ requests e' = requests e1.
Proof.
  intros Hm Htry Hscope.
  assert (Hf : visited e1 = ∅ /\ eng_pages e1 = []).
  { unfold tryFetchSitemap in Htry.
    destruct (url_parse w startUrl) as [parsed |]; [| discriminate].
    pose proof (probe_sitemaps_fields w (sitemapUrls startUrl parsed) (reset e)) as H.
    assert (Hp : probe_sitemaps w (sitemapUrls startUrl parsed) (reset e)
                 = (sitemapPages, e1)) by congruence.
    rewrite Hp in H. simpl in H. destruct H as (Hv & _ & Hpg & _). split; assumption. }
  destruct Hf as [_ Hpg].
  assert (Hstop : forall base basePath q,
             crawl_loop 1 w cfg base basePath (set_queue q e1) = Some (set_queue q e1)).
  { intros base basePath q. rewrite crawl_loop_step. unfold loop_test.
    cbn [eng_pages set_queue]. rewrite Hpg. cbn [length].
    destruct (Z.ltb_spec (Z.of_nat 0) (maxPages cfg)); [lia |].
    rewrite andb_false_r. reflexivity. }
  unfold scrape. rewrite Htry. destruct (0 <? length sitemapPages)%nat.
  - unfold scrapeFromSitemap. unfold scope_parses in Hscope.
    destruct (first_truthy sitemapPages) as [u |].
    + destruct (url_parse w u) as [p |]; [| contradiction].
      rewrite Hstop. eexists. eexists. split; [reflexivity |].
      simpl. rewrite Hpg. repeat split; reflexivity.
    + rewrite Hstop. eexists. eexists. split; [reflexivity |].
      simpl. rewrite Hpg. repeat split; reflexivity.
  - unfold recursiveCrawl. unfold tryFetchSitemap in Htry.
    destruct (url_parse w startUrl) as [parsed |]; [| discriminate].
    rewrite Hstop. eexists. eexists. split; [reflexivity |].
    simpl. rewrite Hpg. repeat split; reflexivity.
Qed.

Lemma scrape_without_budget_witness :
  exists r e',
    scrape 1 Sample.mapped_world (constructor (mkOptions (Some (Num (-5))) None None))
           "https://example.com/docs" Sample.fresh = Returned (r, e') /\
    pages r = [] /\ pageCount r = 0.
Proof.
  destruct (scrape_without_budget Sample.mapped_world
              (constructor (mkOptions (Some (Num (-5))) None None))
              "https://example.com/docs" Sample.fresh
              ["https://example.com/docs/a"] _
              ltac:(vm_compute; discriminate) ltac:(vm_compute; reflexivity)
              ltac:(vm_compute; discriminate))
    as (r & e' & Hrun & Hp & Hc & _).
  exists r, e'. repeat split; assumption.
Defined.

(** ** The scope of a sitemap crawl *)

Lemma tryFetchSitemap_fields (w : World) (b : string) (e : Engine)
  (l : list string) (e1 : Engine) :
  tryFetchSitemap w b (reset e) = Returned (l, e1) ->
  visited e1 = ∅ /\ queue e1 = [] /\ eng_pages e1 = [] /\ enqueued e1 = [].
Proof.
  unfold tryFetchSitemap. destruct (url_parse w b) as [parsed |]; [| discriminate].
  intros H.
  assert (Hp : probe_sitemaps w (sitemapUrls b parsed) (reset e) = (l, e1)) by congruence.
  pose proof (probe_sitemaps_fields w (sitemapUrls b parsed) (reset e)) as Hf.
  rewrite Hp in Hf. simpl in Hf. destruct Hf as (Hv & Hq & Hpg & Hen & _).
  repeat split; assumption.
Qed.

(** The locations that the resolver returns are not empty strings. *)
Lemma tryFetchSitemap_truthy (w : World) (b : string) (e : Engine)
  (l : list string) (e' : Engine) :
  tryFetchSitemap w b e = Returned (l, e') ->
  Forall (fun u => u <> EmptyString) l.
Proof.
  unfold tryFetchSitemap. destruct (url_parse w b) as [parsed |]; [| discriminate].
  intros H.
  assert (Hp : probe_sitemaps w (sitemapUrls b parsed) e = (l, e')) by congruence.
  apply probe_sitemaps_requests in Hp as (k & _ & _ & _ & _ & Hall). exact Hall.
Qed.

(** The seed holds URLs in scope only. *)
Lemma sitemap_seed_in_scope (cfg : Config) (e : Engine) (base : string)
  (urls : list string) (u : string) :
  In u (sitemap_seed cfg e base urls) ->
  In u urls /\ in_scope base u /\ (u ∉ visited e).
Proof.
  unfold sitemap_seed.
  destruct (slice0_take (maxPages cfg)
              (List.filter (fun u => shouldFollow e (Some u) base) urls))
    as (n & -> & _).
  intros Hu. apply list_elem_of_In, (subseteq_take n), list_elem_of_In in Hu.
  apply filter_In in Hu as [Hin Hf].
  apply shouldFollow_spec in Hf as (s & Hs & Hscope & Hv). inversion Hs; subst.
  split; [exact Hin |]. split; [exact Hscope | exact Hv].
Qed.

(** A sitemap crawl that returns has parsed the first entry of the sitemap
    and has run the loop from the seed, in the scope of the origin of that
    entry. *)
Lemma scrape_sitemap_returned (fuel : nat) (w : World) (cfg : Config)
  (startUrl : string) (e : Engine) (u : string) (rest : list string) (e1 : Engine)
  (r : ScrapeResult) (e' : Engine) :
  tryFetchSitemap w startUrl (reset e) = Returned (u :: rest, e1) ->
  scrape fuel w cfg startUrl e = Returned (r, e') ->
  exists p,
    url_parse w u = Some p /\
    crawl_loop fuel w cfg (origin p) (getBasePath w u)
      (set_queue (sitemap_seed cfg e1 (origin p) (u :: rest)) e1) = Some e' /\
    r = result_of w e' (Some (if JsString.is_empty (origin p) then u else origin p)).
Proof.
  intros Htry Hrun.
  assert (Hu : u <> EmptyString).
  { pose proof (tryFetchSitemap_truthy _ _ _ _ _ Htry) as H.
    apply Forall_cons in H as [H _]. exact H. }
  unfold scrape in Hrun. rewrite Htry in Hrun. cbn [length Nat.ltb Nat.leb] in Hrun.
  unfold scrapeFromSitemap in Hrun. cbn [first_truthy] in Hrun.
  destruct u as [| c u]; [contradiction |]. cbn [JsString.is_empty] in Hrun.
  destruct (url_parse w (String c u)) as [p |]; [| discriminate].
  exists p. split; [reflexivity |].
  destruct (crawl_loop fuel w cfg (origin p) (getBasePath w (String c u)) _) as [e2 |];
    [| discriminate].
  inversion Hrun; subst. split; [reflexivity |].
  cbn [hd_error]. destruct (JsString.is_empty (origin p)); reflexivity.
Qed.

(** X12: a sitemap crawl is scoped by the origin of the first entry of the
    sitemap, not by the start URL: the result names that origin as its base
    URL, and every URL that is requested as a page, returned as a page or
    pushed as a link is in scope of that origin. *)
Theorem sitemap_crawl_scope (fuel : nat) (w : World) (cfg : Config)
  (startUrl : string) (e : Engine) (u : string) (rest : list string) (e1 : Engine)
  (r : ScrapeResult) (e' : Engine) :
  tryFetchSitemap w startUrl (reset e) = Returned (u :: rest, e1) ->
  scrape fuel w cfg startUrl e = Returned (r, e') ->
  exists p fetched,
    url_parse w u = Some p /\
    baseUrl r = Some (if JsString.is_empty (origin p) then u else origin p) /\
    requests e' = requests e1 ++ fetched /\
    (forall x, In x fetched -> in_scope (origin p) x) /\
    (forall pg, In pg (pages r) -> in_scope (origin p) (url pg)) /\
    (forall x, In x (enqueued e') -> in_scope (origin p) x).
Proof.
  intros Htry Hrun.
  destruct (scrape_sitemap_returned _ _ _ _ _ _ _ _ _ _ Htry Hrun)
    as (p & Hp & Hloop & ->).
  destruct (tryFetchSitemap_fields _ _ _ _ _ Htry) as (_ & _ & Hpg & Hen).
  exists p.
  apply (crawl_loop_invariant w cfg (origin p) (getBasePath w u)
           (fun e =>
              Forall (in_scope (origin p)) (enqueued e) /\
              Forall (in_scope (origin p)) (queue e) /\
              (exists fetched,
                  requests e = requests e1 ++ fetched /\
                  Forall (in_scope (origin p)) fetched) /\
              Forall (fun pg => in_scope (origin p) (url pg)) (eng_pages e))) in Hloop.
  - destruct Hloop as ((Hen' & _ & (fetched & Hreq & Hfetched) & Hps) & _).
    exists fetched. split; [exact Hp |]. split; [reflexivity |].
    split; [exact Hreq |].
    rewrite Forall_forall in Hen'. rewrite Forall_forall in Hfetched.
    rewrite Forall_forall in Hps.
    split; [intros x Hx; apply Hfetched, list_elem_of_In, Hx |].
    split; [intros pg Hx; apply Hps, list_elem_of_In, Hx |].
    intros x Hx. apply Hen', list_elem_of_In, Hx.
  - intros e2 Hkeep _.
    apply (run_batch_scope w cfg (origin p) (getBasePath w u) (in_scope (origin p))
             (requests e1) e2); [intros x Hx; exact Hx | exact Hkeep].
  - cbn [enqueued queue requests eng_pages set_queue]. rewrite Hen, Hpg.
    split; [constructor |]. split.
    + apply Forall_forall. intros x Hx. apply list_elem_of_In in Hx.
      apply sitemap_seed_in_scope in Hx. apply Hx.
    + split; [| constructor]. exists []. rewrite app_nil_r. split; [reflexivity | constructor].
Qed.

Lemma sitemap_crawl_scope_witness :
  exists e1 r e' p,
    tryFetchSitemap Sample.mapped_world "https://example.com/docs" (reset Sample.fresh)
    = Returned (["https://example.com/docs/a"], e1) /\
    scrape 4 Sample.mapped_world (Sample.config 200 5)
           "https://example.com/docs" Sample.fresh = Returned (r, e') /\
    url_parse Sample.mapped_world "https://example.com/docs/a" = Some p /\
    forall pg, In pg (pages r) -> in_scope (origin p) (url pg).
Proof.
  eexists. eexists. eexists.
  destruct (sitemap_crawl_scope 4 Sample.mapped_world (Sample.config 200 5)
              "https://example.com/docs" Sample.fresh "https://example.com/docs/a" []
              _ _ _ ltac:(vm_compute; reflexivity) ltac:(vm_compute; reflexivity))
    as (p & fetched & Hp & _ & _ & _ & Hpages & _).
  exists p. split; [vm_compute; reflexivity |]. split; [vm_compute; reflexivity |].
  split; [exact Hp | exact Hpages].
Defined.

(** ** The first request of a recursive crawl *)

Lemma settle_requests (w : World) (cfg : Config) (base basePath : string)
  (ts : list inflight) (e : Engine) :
  requests (settle w cfg base basePath ts e) = requests e.
Proof.
  destruct (settle_spec w cfg base basePath ts e) as (ps & new & ok & -> & _).
  reflexivity.
Qed.

(** The first turn of a recursive crawl requests the start URL. *)
Lemma run_batch_first (w : World) (cfg : Config) (base basePath startUrl : string)
  (e : Engine) :
  (0 < concurrency cfg)%Z ->
  queue e = [startUrl] -> visited e = ∅ ->
  requests (run_batch w cfg base basePath e) = requests e ++ [startUrl].
Proof.
  intros Hc Hq Hv. unfold run_batch, splice0. rewrite Hq.
  assert (Hn : Z.to_nat (Z.min (Z.max (concurrency cfg) 0)
                               (Z.of_nat (length [startUrl]))) = 1).
  { simpl length. lia. }
  rewrite Hn. cbn [firstn skipn dispatch].
  unfold scrapePage_start. cbn [visited set_queue]. rewrite Hv.
  rewrite bool_decide_eq_false_2 by apply not_elem_of_empty.
  rewrite settle_requests. reflexivity.
Qed.

(** X13: in a recursive crawl with a positive budget and a positive
    concurrency, the first page requested is the start URL itself, whatever
    it is: the in-scope test is applied to the links found, not to the start
    URL. *)
Theorem recursive_crawl_requests_start_first (fuel : nat) (w : World) (cfg : Config)
  (startUrl : string) (e e1 : Engine) (r : ScrapeResult) (e' : Engine) :
  (0 < maxPages cfg)%Z -> (0 < concurrency cfg)%Z ->
  tryFetchSitemap w startUrl (reset e) = Returned ([], e1) ->
  scrape fuel w cfg startUrl e = Returned (r, e') ->
  exists later, requests e' = requests e1 ++ startUrl :: later.
Proof.
  intros Hm Hc Htry Hrun. apply scrape_returned in Hrun.
  destruct Hrun as (l & e1' & base & basePath & e0 & Htry' & Hv0 & Hp0 & _ & Hr0
                    & Hmode & Hloop & _).
  rewrite Htry in Htry'. inversion Htry'; subst l e1'.
  destruct Hmode as [(_ & Hq0 & _) | [Hne _]]; [| contradiction].
  destruct fuel as [| fuel]; [discriminate |].
  rewrite crawl_loop_step in Hloop.
  assert (Ht : loop_test cfg e0 = true).
  { unfold loop_test. rewrite Hq0, Hp0. cbn [length Nat.ltb Nat.leb andb].
    apply Z.ltb_lt. simpl. exact Hm. }
  rewrite Ht in Hloop.
  apply (crawl_loop_invariant w cfg base basePath
           (fun e => exists later, requests e = requests e1 ++ startUrl :: later))
    in Hloop.
  - apply Hloop.
  - intros e2 (later & Hreq) _.
    destruct (run_batch_spec w cfg base basePath e2)
      as (batch & rest & sent & ps & new & _ & _ & _ & _ & _ & _ & Hr & _).
    exists (later ++ sent). rewrite Hr, Hreq, <- app_assoc. reflexivity.
  - exists []. rewrite (run_batch_first w cfg base basePath startUrl e0 Hc Hq0 Hv0), Hr0.
    reflexivity.
Qed.

Lemma recursive_crawl_requests_start_first_witness :
  exists e1 r e' later,
    tryFetchSitemap Sample.docs_world "https://example.com/blog/post" (reset Sample.fresh)
    = Returned ([], e1) /\
    scrape 4 Sample.docs_world (Sample.config 200 5)
           "https://example.com/blog/post" Sample.fresh = Returned (r, e') /\
    requests e' = requests e1 ++ "https://example.com/blog/post" :: later.
Proof.
  eexists. eexists. eexists.
  destruct (recursive_crawl_requests_start_first 4 Sample.docs_world (Sample.config 200 5)
              "https://example.com/blog/post" Sample.fresh _ _ _
              ltac:(reflexivity) ltac:(reflexivity)
              ltac:(vm_compute; reflexivity) ltac:(vm_compute; reflexivity))
    as (later & Hreq).
  exists later. split; [vm_compute; reflexivity |]. split; [vm_compute; reflexivity |].
  exact Hreq.
Defined.

(** ** A concurrency that is not positive *)

(** With a concurrency of zero or less a turn of the loop takes nothing from
    the queue and adds no page. *)
Lemma run_batch_idle (w : World) (cfg : Config) (base basePath : string) (e : Engine) :
  (concurrency cfg <= 0)%Z ->
  queue (run_batch w cfg base basePath e) = queue e /\
  eng_pages (run_batch w cfg base basePath e) = eng_pages e.
Proof.
  intros Hc.
  destruct (run_batch_spec w cfg base basePath e)
    as (batch & rest & sent & ps & new & Hq & Hlen & _ & _ & Hq' & Hp & _ & _ & _ & _
        & Hsent & Hsub & _ & Hnil & _).
  assert (Hb : batch = []) by (destruct batch; [reflexivity | simpl in Hlen; lia]).
  subst batch. assert (Hs : sent = []) by (destruct sent; [reflexivity | simpl in Hsent; lia]).
  subst sent. apply submseteq_length in Hsub. rewrite length_fmap in Hsub.
  assert (Hps : ps = []) by (destruct ps; [reflexivity | simpl in Hsub; lia]).
  subst ps. rewrite (Hnil eq_refl) in Hq'. rewrite app_nil_r in Hq', Hp.
  rewrite Hq', Hp, Hq. split; reflexivity.
Qed.

(** X14: with a concurrency of zero or less and a positive budget, a
    recursive crawl never returns: [splice] takes nothing from the queue, no
    page is requested, and the test of the loop holds for ever.  The
    constructor lets a negative concurrency through. *)
Theorem scrape_never_returns_without_concurrency (fuel : nat) (w : World) (cfg : Config)
  (startUrl : string) (e e1 : Engine) :
  (concurrency cfg <= 0)%Z -> (0 < maxPages cfg)%Z ->
  tryFetchSitemap w startUrl (reset e) = Returned ([], e1) ->
  scrape fuel w cfg startUrl e = OutOfFuel.
Proof.
  intros Hc Hm Htry.
  assert (Hloop : forall base basePath fuel e0,
             loop_test cfg e0 = true -> crawl_loop fuel w cfg base basePath e0 = None).
  { intros base basePath. induction fuel0 as [| fuel0 IH]; intros e0 Ht; [reflexivity |].
    rewrite crawl_loop_step, Ht. apply IH.
    destruct (run_batch_idle w cfg base basePath e0 Hc) as [Hq Hp].
    unfold loop_test in *. rewrite Hq, Hp. exact Ht. }
  destruct (tryFetchSitemap_fields _ _ _ _ _ Htry) as (_ & Hq & Hpg & _).
  unfold scrape. rewrite Htry. cbn [length Nat.ltb Nat.leb].
  unfold recursiveCrawl. unfold tryFetchSitemap in Htry.
  destruct (url_parse w startUrl) as [parsed |]; [| discriminate].
  rewrite Hloop; [reflexivity |].
  unfold loop_test. cbn [queue eng_pages set_queue]. rewrite Hq, Hpg.
  cbn [app length Nat.ltb Nat.leb andb]. apply Z.ltb_lt. simpl. exact Hm.
Qed.

Lemma scrape_never_returns_without_concurrency_witness :
  scrape 1000 Sample.docs_world
    (constructor (mkOptions None None (Some (Num (-1)))))
    "https://example.com/docs/a" Sample.fresh = OutOfFuel.
Proof.
  eapply (scrape_never_returns_without_concurrency 1000 Sample.docs_world
            (constructor (mkOptions None None (Some (Num (-1)))))
            "https://example.com/docs/a" Sample.fresh).
  - vm_compute. discriminate.
  - reflexivity.
  - vm_compute. reflexivity.
Defined.

(** * Merging sources *)

Lemma merge_loop_spec (incoming : list Page) (seen : gset string) (merged : list Page) :
  exists added,
    merge_loop incoming seen merged
    = (list_to_set (page_key <$> added) ∪ seen, merged ++ added) /\
    sublist added incoming /\
    NoDup (page_key <$> added) /\
    (forall p, p ∈ added -> page_key p ∉ seen) /\
    (forall p, p ∈ incoming -> page_key p ∈ list_to_set (page_key <$> added) ∪ seen).
Proof.
  revert seen merged. induction incoming as [| p rest IH]; intros seen merged.
  - exists []. simpl. rewrite app_nil_r, (left_id_L ∅ (∪)).
    split; [reflexivity |]. split; [constructor |]. split; [constructor |].
    split; intros p Hp; apply elem_of_nil in Hp; contradiction.
  - simpl. case_bool_decide as Hseen.
    + destruct (IH seen merged) as (added & -> & Hsub & Hnd & Hnew & Hall).
      exists added. split; [reflexivity |]. split; [apply sublist_cons, Hsub |].
      split; [exact Hnd |]. split; [exact Hnew |].
      intros q Hq. apply elem_of_cons in Hq as [-> | Hq].
      * apply elem_of_union_r, Hseen.
      * apply Hall, Hq.
    + destruct (IH ({[page_key p]} ∪ seen) (merged ++ [p]))
        as (added & -> & Hsub & Hnd & Hnew & Hall).
      exists (p :: added). rewrite fmap_cons, list_to_set_cons.
      split.
      { f_equal.
        - apply set_eq. intros x. rewrite !elem_of_union. tauto.
        - rewrite <- app_assoc. reflexivity. }
      split; [apply sublist_skip, Hsub |].
      split.
      { apply NoDup_cons. split; [| exact Hnd].
        intros Hin. apply list_elem_of_fmap in Hin as (q & Hkey & Hq).
        apply (Hnew q Hq). rewrite <- Hkey.
        apply elem_of_union_l, elem_of_singleton. reflexivity. }
      split.
      { intros q Hq. apply elem_of_cons in Hq as [-> | Hq]; [exact Hseen |].
        intros Hin. apply (Hnew q Hq), elem_of_union_r, Hin. }
      intros q Hq. apply elem_of_cons in Hq as [-> | Hq].
      * apply elem_of_union_l, elem_of_union_l, elem_of_singleton. reflexivity.
      * specialize (Hall q Hq). revert Hall. rewrite !elem_of_union. tauto.
Qed.

(** X15: [mergePages] keeps the existing pages, first and as they are, and
    appends incoming pages in their order; the pages appended have keys that
    differ from each other and from the keys of the existing pages, so that
    the keys of the result are distinct when those of the existing pages
    are. *)
Theorem mergePages_appends (existing incoming : list Page) :
  exists added,
    mergePages existing incoming = existing ++ added /\
    sublist added incoming /\
    NoDup (List.map page_key added) /\
    (forall p q, In p added -> In q existing -> page_key p <> page_key q) /\
    (NoDup (List.map page_key existing) ->
     NoDup (List.map page_key (mergePages existing incoming))).
Proof.
  unfold mergePages.
  destruct (merge_loop_spec incoming (list_to_set (List.map page_key existing)) existing)
    as (added & -> & Hsub & Hnd & Hnew & _).
  exists added. cbn [snd]. split; [reflexivity |]. split; [exact Hsub |].
  split; [exact Hnd |].
  assert (Hdisj : forall p q, In p added -> In q existing -> page_key p <> page_key q).
  { intros p q Hp Hq Heq. apply list_elem_of_In in Hp. apply (Hnew p Hp).
    apply elem_of_list_to_set, list_elem_of_In. rewrite Heq.
    apply in_map, Hq. }
  split; [exact Hdisj |].
  intros Hex. rewrite List.map_app. apply NoDup_app. split; [exact Hex |].
  split; [| exact Hnd].
  intros k Hk Hk'. apply list_elem_of_In, in_map_iff in Hk as (q & <- & Hq).
  apply list_elem_of_In, in_map_iff in Hk' as (p & Hpk & Hp).
  apply (Hdisj p q Hp Hq Hpk).
Qed.

(** X16: no incoming page is lost without a page of the same key: the key of
    every existing and of every incoming page is the key of a page of the
    result. *)
Theorem mergePages_covers (existing incoming : list Page) (p : Page) :
  In p existing \/ In p incoming ->
  exists q, In q (mergePages existing incoming) /\ page_key q = page_key p.
Proof.
  unfold mergePages.
  destruct (merge_loop_spec incoming (list_to_set (List.map page_key existing)) existing)
    as (added & -> & _ & _ & _ & Hall).
  cbn [snd]. intros [Hp | Hp].
  - exists p. split; [apply in_or_app; left; exact Hp | reflexivity].
  - apply list_elem_of_In in Hp. specialize (Hall p Hp).
    apply elem_of_union in Hall as [Hin | Hin].
    + apply elem_of_list_to_set, list_elem_of_fmap in Hin as (q & Hkey & Hq).
      exists q. split; [apply in_or_app; right; apply list_elem_of_In, Hq | congruence].
    + apply elem_of_list_to_set, list_elem_of_In, in_map_iff in Hin as (q & Hkey & Hq).
      exists q. split; [apply in_or_app; left; exact Hq | exact Hkey].
Qed.

Lemma mergePages_covers_witness :
  exists q,
    In q (mergePages
            [mkPage "https://example.com/a" "A" "old text" 2 "2024-01-01"]
            [mkPage "https://example.com/a" "A" "new text" 2 "2024-02-01"]) /\
    page_key q = page_key (mkPage "https://example.com/a" "A" "new text" 2 "2024-02-01").
Proof.
  apply (mergePages_covers
           [mkPage "https://example.com/a" "A" "old text" 2 "2024-01-01"]
           [mkPage "https://example.com/a" "A" "new text" 2 "2024-02-01"]).
  right. left. reflexivity.
Defined.

Lemma merge_loop_noop (incoming : list Page) (seen : gset string) (merged : list Page) :
  (forall p, In p incoming -> page_key p ∈ seen) ->
  merge_loop incoming seen merged = (seen, merged).
Proof.
  induction incoming as [| p rest IH]; intros Hall; [reflexivity |].
  simpl. rewrite bool_decide_eq_true_2 by (apply Hall; left; reflexivity).
  apply IH. intros q Hq. apply Hall. right. exact Hq.
Qed.

(** The key of every incoming page is the key of a page of the result. *)
Lemma mergePages_key_kept (existing incoming : list Page) (p : Page) :
  In p incoming ->
  page_key p ∈ list_to_set (C := gset string)
                 (List.map page_key (mergePages existing incoming)).
Proof.
  unfold mergePages.
  destruct (merge_loop_spec incoming (list_to_set (List.map page_key existing)) existing)
    as (added & -> & _ & _ & _ & Hall).
  cbn [snd]. intros Hp. apply list_elem_of_In in Hp. specialize (Hall p Hp).
  change (List.map page_key (existing ++ added)) with (page_key <$> (existing ++ added)).
  rewrite fmap_app, list_to_set_app_L. revert Hall. rewrite !elem_of_union. tauto.
Qed.

(** Merging keeps distinct keys distinct. *)
Lemma mergePages_keys_distinct (existing incoming : list Page) :
  NoDup (List.map page_key existing) ->
  NoDup (List.map page_key (mergePages existing incoming)).
Proof.
  unfold mergePages.
  destruct (merge_loop_spec incoming (list_to_set (List.map page_key existing)) existing)
    as (added & -> & _ & Hnd & Hnew & _).
  cbn [snd]. intros Hex. rewrite List.map_app. apply NoDup_app. split; [exact Hex |].
  split; [| exact Hnd].
  intros k Hk Hk'. apply list_elem_of_fmap in Hk' as (p & -> & Hp).
  apply (Hnew p Hp). apply elem_of_list_to_set. exact Hk.
Qed.

(** X17: merging the same pages a second time changes nothing:
    [mergePages (mergePages a b) b] is [mergePages a b], and merging a list
    with itself gives the list. *)
Theorem mergePages_idempotent (existing incoming : list Page) :
  mergePages (mergePages existing incoming) incoming = mergePages existing incoming /\
  mergePages existing existing = existing.
Proof.
  split.
  - unfold mergePages at 1. rewrite merge_loop_noop; [reflexivity |].
    intros p Hp. apply mergePages_key_kept, Hp.
  - unfold mergePages. rewrite merge_loop_noop; [reflexivity |].
    intros p Hp. apply elem_of_list_to_set, list_elem_of_In, in_map, Hp.
Qed.

(** X18: the key does not tell two pages apart when a bar can be read as part
    of the URL or as part of the title: a page with URL [u|s] and title [t]
    and a page with URL [u] and title [s|t] have one key, and the second of
    them is dropped by a merge. *)
Theorem mergePages_key_collision (u s t c1 c2 d1 d2 : string) (n1 n2 : nat) :
  let p1 := mkPage (u +:+ "|" +:+ s) t c1 n1 d1 in
  let p2 := mkPage u (s +:+ "|" +:+ t) c2 n2 d2 in
  page_key p1 = page_key p2 /\ mergePages [p1] [p2] = [p1].
Proof.
  intros p1 p2.
  assert (Hkey : page_key p1 = page_key p2).
  { unfold page_key, p1, p2. cbn [url title].
    rewrite !str_app_assoc. reflexivity. }
  split; [exact Hkey |].
  unfold mergePages. rewrite merge_loop_noop; [reflexivity |].
  intros p [<- | []]. rewrite <- Hkey.
  apply elem_of_list_to_set. left.
Qed.

Lemma merge_sources_fold (sources : list SourceData) (pages : list Page) :
  snd (merge_sources sources (list_to_set (page_key <$> pages)) pages)
  = fold_left (fun acc data => mergePages acc (default [] (src_pages data)))
              sources pages.
Proof.
  revert pages. induction sources as [| data rest IH]; intros pages; [reflexivity |].
  simpl. unfold mergePages at 2.
  destruct (merge_loop_spec (default [] (src_pages data))
              (list_to_set (page_key <$> pages)) pages) as (added & Hloop & _).
  change (List.map page_key pages) with (page_key <$> pages).
  rewrite Hloop. cbn [snd].
  replace (list_to_set (page_key <$> added) ∪ list_to_set (page_key <$> pages))
    with (list_to_set (C := gset string) (page_key <$> (pages ++ added))).
  - apply IH.
  - rewrite fmap_app, list_to_set_app_L. apply set_eq. intros x.
    rewrite !elem_of_union. tauto.
Qed.

(** X19: [mergeDocsData] is [mergePages] applied to one source after the
    other, from no page at all, a source without pages counting as empty;
    the keys of its pages are distinct and [pageCount] is their number. *)
Theorem mergeDocsData_iterates (now : string) (sources : list SourceData) :
  md_pages (mergeDocsData now sources)
  = fold_left (fun acc data => mergePages acc (default [] (src_pages data))) sources [] /\
  NoDup (List.map page_key (md_pages (mergeDocsData now sources))) /\
  md_pageCount (mergeDocsData now sources) = length (md_pages (mergeDocsData now sources)).
Proof.
  assert (Hfold : md_pages (mergeDocsData now sources)
                  = fold_left (fun acc data => mergePages acc (default [] (src_pages data)))
                              sources []).
  { unfold mergeDocsData. cbn [md_pages].
    rewrite <- (merge_sources_fold sources []). reflexivity. }
  split; [exact Hfold |]. split; [| reflexivity].
  rewrite Hfold.
  assert (Hgen : forall pages,
             NoDup (List.map page_key pages) ->
             NoDup (List.map page_key
                      (fold_left (fun acc data => mergePages acc (default [] (src_pages data)))
                                 sources pages))).
  { induction sources as [| data rest IH]; intros pages Hnd; [exact Hnd |].
    simpl. apply IH.
    - unfold mergeDocsData. cbn [md_pages].
      rewrite <- (merge_sources_fold rest []). reflexivity.
    - apply mergePages_keys_distinct, Hnd. }
  apply Hgen. constructor.
Qed.

(** * The GraphQL loader *)

Lemma split_lines_from_join (s cur : string) :
  join_all (List.map (fun l => l +:+ lf) (split_lines_from s cur)) = cur +:+ s +:+ lf.
Proof.
  revert cur. induction s as [| c s IH]; intros cur.
  - simpl. rewrite str_app_nil_r. reflexivity.
  - simpl. destruct (Ascii.eqb_spec c (ascii_of_nat 10)) as [-> | Hc].
    + simpl. rewrite IH. rewrite str_app_assoc. reflexivity.
    + rewrite IH. rewrite str_app_assoc. reflexivity.
Qed.

Lemma split_lines_from_nonempty (s cur : string) : split_lines_from s cur <> [].
Proof.
  revert cur. induction s as [| c s IH]; intros cur; simpl; [discriminate |].
  destruct (Ascii.eqb c (ascii_of_nat 10)); [discriminate | apply IH].
Qed.

Lemma join_all_app (a b : list string) : join_all (a ++ b) = join_all a +:+ join_all b.
Proof.
  induction a as [| x a IH]; [reflexivity |].
  simpl. rewrite IH, str_app_assoc. reflexivity.
Qed.

Lemma is_empty_app_lf (x : string) : JsString.is_empty (x +:+ lf) = false.
Proof. destruct x; reflexivity. Qed.

Lemma ends_with_ws_app_lf (x : string) : ends_with_ws (x +:+ lf) = true.
Proof. unfold ends_with_ws. rewrite ends_ws_from_app. reflexivity. Qed.

(** The loop keeps the text read so far, in order, in the contents of the
    pages followed by the current block; it leaves a current block that is
    not empty once a line has been read; and it pushes one page for every
    line that opens a block, the first line apart. *)
Lemma graphql_loop_spec (clock : nat -> string) (lines : list string)
  (pages : list Page) (cb cn : string) :
  (cb = EmptyString \/ exists x, cb = x +:+ lf) ->
  Forall block_page pages ->
  exists pages' cb' cn',
    graphql_loop clock lines pages cb cn = (pages', cb', cn') /\
    join_all (List.map content pages') +:+ cb'
    = join_all (List.map content pages) +:+ cb
      +:+ join_all (List.map (fun l => l +:+ lf) lines) /\
    (cb' = EmptyString \/ exists x, cb' = x +:+ lf) /\
    (cb' = EmptyString -> cb = EmptyString /\ lines = []) /\
    Forall block_page pages' /\
    length pages'
    = length pages + count_block_starts lines
      - (if JsString.is_empty cb
         then match lines with
              | l :: _ => if is_block_start l then 1 else 0
              | [] => 0
              end
         else 0).
Proof.
  revert pages cb cn. induction lines as [| line rest IH]; intros pages cb cn Hcb Hpages.
  - exists pages, cb, cn. simpl. rewrite str_app_nil_r. unfold count_block_starts. simpl.
    repeat split; try assumption; try reflexivity.
    destruct (JsString.is_empty cb); lia.
  - simpl. unfold count_block_starts, is_block_start in *. simpl.
    destruct (block_prefix line) as [prefix |] eqn:Hprefix.
    + set (pages1 := if JsString.is_empty cb then pages
                     else pages ++ [createPage (clock (length pages)) cn cb]).
      assert (Hp1 : Forall block_page pages1).
      { unfold pages1. destruct (JsString.is_empty cb) eqn:He; [exact Hpages |].
        apply Forall_app. split; [exact Hpages |]. constructor; [| constructor].
        destruct Hcb as [-> | Hx]; [discriminate |].
        unfold block_page, createPage. cbn [url content wordCount].
        split; [reflexivity |]. split; [exact Hx | reflexivity]. }
      assert (Hj : join_all (List.map content pages1)
                   = join_all (List.map content pages) +:+ cb).
      { unfold pages1. destruct cb as [| c cb']; cbn [JsString.is_empty].
        - rewrite str_app_nil_r. reflexivity.
        - rewrite List.map_app, join_all_app. simpl. rewrite str_app_nil_r. reflexivity. }
      destruct (IH pages1 (line +:+ lf) (default "Unknown" (match_name prefix line))
                  (or_intror (ex_intro _ line eq_refl)) Hp1)
        as (pages' & cb' & cn' & Hrun & Hjoin & Hcb' & Hnil & Hblock & Hlen).
      exists pages', cb', cn'. split; [exact Hrun |].
      split.
      { rewrite Hjoin, Hj. rewrite !str_app_assoc. reflexivity. }
      split; [exact Hcb' |].
      split.
      { intros H. destruct (Hnil H) as [Hl _]. destruct line; discriminate. }
      split; [exact Hblock |].
      rewrite Hlen, is_empty_app_lf. unfold pages1.
      destruct (JsString.is_empty cb); [| rewrite length_app]; simpl; lia.
    + assert (Hcb1 : cb +:+ line +:+ lf = EmptyString \/
                     exists x, cb +:+ line +:+ lf = x +:+ lf).
      { right. exists (cb +:+ line). rewrite str_app_assoc. reflexivity. }
      destruct (IH pages (cb +:+ line +:+ lf) cn Hcb1 Hpages)
        as (pages' & cb' & cn' & Hrun & Hjoin & Hcb' & Hnil & Hblock & Hlen).
      exists pages', cb', cn'. split; [exact Hrun |].
      split.
      { rewrite Hjoin. rewrite !str_app_assoc. reflexivity. }
      split; [exact Hcb' |].
      split.
      { intros H. destruct (Hnil H) as [Hl _]. exfalso.
        pose proof (is_empty_app_lf (cb +:+ line)) as Hne.
        rewrite str_app_assoc, Hl in Hne. discriminate. }
      split; [exact Hblock |].
      rewrite Hlen. rewrite <- str_app_assoc, is_empty_app_lf.
      destruct (JsString.is_empty cb); lia.
Qed.

Lemma graphql_blocks_spec (clock : nat -> string) (schemaStr : string) :
  join_all (List.map content (graphql_blocks clock schemaStr)) = schemaStr +:+ lf /\
  graphql_blocks clock schemaStr <> [] /\
  Forall block_page (graphql_blocks clock schemaStr) /\
  length (graphql_blocks clock schemaStr)
  = count_block_starts (split_lines schemaStr)
    + match split_lines schemaStr with
      | l :: _ => if is_block_start l then 0 else 1
      | [] => 1
      end.
Proof.
  unfold graphql_blocks.
  destruct (graphql_loop_spec clock (split_lines schemaStr) [] EmptyString EmptyString
              (or_introl eq_refl) (List.Forall_nil _))
    as (pages & cb & cn & -> & Hjoin & Hcb & Hnil & Hblock & Hlen).
  unfold split_lines in *. rewrite split_lines_from_join in Hjoin.
  change (join_all (List.map content []) +:+ EmptyString +:+ (EmptyString +:+ schemaStr +:+ lf))
    with (schemaStr +:+ lf) in Hjoin.
  destruct Hcb as [Hcb | (x & Hx)].
  { destruct (Hnil Hcb) as [_ Hl]. apply split_lines_from_nonempty in Hl. contradiction. }
  subst cb. rewrite is_empty_app_lf.
  split; [| split; [| split]].
  - rewrite List.map_app, join_all_app. simpl. rewrite str_app_nil_r. exact Hjoin.
  - intros H. apply app_eq_nil in H as [_ H]. discriminate.
  - apply Forall_app. split; [exact Hblock |]. constructor; [| constructor].
    unfold block_page, createPage. cbn [url content wordCount].
    split; [reflexivity |]. split; [exists x; reflexivity | reflexivity].
  - rewrite length_app, Hlen. cbn [JsString.is_empty length].
    destruct (split_lines_from schemaStr EmptyString) as [| l rest] eqn:Hlines.
    + apply split_lines_from_nonempty in Hlines. contradiction.
    + unfold count_block_starts. simpl. destruct (is_block_start l); simpl; lia.
Qed.

(** X20: the loader loses no text of the schema: the contents of its pages,
    one after the other, are the schema followed by one line feed. *)
Theorem graphql_contents_rebuild_schema (clock : nat -> string)
  (source schemaStr : string) :
  join_all (List.map content (lr_pages (graphql_result clock source schemaStr)))
  = schemaStr +:+ lf.
Proof.
  destruct (graphql_blocks_spec clock schemaStr) as (Hjoin & Hne & _).
  unfold graphql_result. cbn [lr_pages].
  destruct (graphql_blocks clock schemaStr) as [| b bs]; [contradiction |].
  simpl length. simpl Nat.eqb. cbn [andb]. exact Hjoin.
Qed.

(** X21: the loader returns at least one page for every schema, the empty
    schema too, so that the page for a schema without blocks, titled
    [GraphQL Schema], is never made. *)
Theorem graphql_result_never_empty (clock : nat -> string) (source schemaStr : string) :
  lr_pages (graphql_result clock source schemaStr) = graphql_blocks clock schemaStr /\
  lr_pages (graphql_result clock source schemaStr) <> [] /\
  1 <= lr_pageCount (graphql_result clock source schemaStr) /\
  List.map (fun p => (title p, content p))
           (lr_pages (graphql_result clock source EmptyString))
  = [(EmptyString, lf)].
Proof.
  destruct (graphql_blocks_spec clock schemaStr) as (_ & Hne & _).
  assert (Heq : lr_pages (graphql_result clock source schemaStr)
                = graphql_blocks clock schemaStr).
  { unfold graphql_result. cbn [lr_pages].
    destruct (graphql_blocks clock schemaStr) as [| b bs]; [contradiction | reflexivity]. }
  split; [exact Heq |]. split; [rewrite Heq; exact Hne |]. split; [| reflexivity].
  unfold graphql_result. cbn [lr_pageCount].
  destruct (graphql_blocks clock schemaStr) as [| b bs]; [contradiction |].
  simpl. lia.
Qed.

(** X22: the number of pages is the number of lines that open a block, plus
    one when the first line does not open a block: the text before the first
    block is a page of its own, with an empty title. *)
Theorem graphql_page_count (clock : nat -> string) (source schemaStr : string) :
  lr_pageCount (graphql_result clock source schemaStr)
  = count_block_starts (split_lines schemaStr)
    + match split_lines schemaStr with
      | l :: _ => if is_block_start l then 0 else 1
      | [] => 1
      end.
Proof.
  destruct (graphql_blocks_spec clock schemaStr) as (_ & Hne & _ & Hlen).
  unfold graphql_result. cbn [lr_pageCount].
  destruct (graphql_blocks clock schemaStr) as [| b bs]; [contradiction |].
  exact Hlen.
Qed.

(** X23: every page of the loader has the URL [schema], whatever the source
    is, and a content that ends in a line feed; its word count is therefore
    at least one more than the number of its tokens: one more when the
    content starts with a token, two more when it starts with white space. *)
Theorem graphql_page_word_count (clock : nat -> string) (source schemaStr : string)
  (p : Page) :
  In p (lr_pages (graphql_result clock source schemaStr)) ->
  url p = "schema" /\
  wordCount p = token_count (content p)
                + (if starts_with_token (content p) then 1 else 2).
Proof.
  destruct (graphql_blocks_spec clock schemaStr) as (_ & Hne & Hblock & _).
  unfold graphql_result. cbn [lr_pages].
  destruct (graphql_blocks clock schemaStr) as [| b bs] eqn:Hb; [contradiction |].
  simpl length. simpl Nat.eqb. cbn [andb]. intros Hp.
  rewrite Forall_forall in Hblock. apply list_elem_of_In in Hp.
  destruct (Hblock p Hp) as (Hurl & (x & Hx) & Hwc).
  split; [exact Hurl |].
  rewrite Hwc, wordCount_law, Hx, ends_with_ws_app_lf.
  destruct (starts_with_token (x +:+ lf)); lia.
Qed.

Lemma graphql_page_word_count_witness :
  wordCount (createPage "now" "User" ("type User" +:+ lf))
  = token_count ("type User" +:+ lf) + 1.
Proof.
  exact (proj2 (graphql_page_word_count (fun _ => "now") "schema.graphql" "type User"
                  (createPage "now" "User" ("type User" +:+ lf))
                  ltac:(vm_compute; left; reflexivity))).
Defined.

(** X24: the pages of two schemas are told apart by the names of their blocks
    only: when a block of the second schema has the name of a block of the
    first, merging the pages keeps, under that key, a page of the first
    schema alone. *)
Theorem graphql_merge_same_name (clock1 clock2 : nat -> string)
  (source1 source2 schema1 schema2 : string) (p q x : Page) :
  In p (lr_pages (graphql_result clock1 source1 schema1)) ->
  In q (lr_pages (graphql_result clock2 source2 schema2)) ->
  title p = title q ->
  In x (mergePages (lr_pages (graphql_result clock1 source1 schema1))
                   (lr_pages (graphql_result clock2 source2 schema2))) ->
  page_key x = page_key q ->
  In x (lr_pages (graphql_result clock1 source1 schema1)).
Proof.
  intros Hp Hq Htitle Hx Hkey.
  assert (Hu : forall clock source schemaStr y,
             In y (lr_pages (graphql_result clock source schemaStr)) -> url y = "schema").
  { intros clock source schemaStr y Hy.
    destruct (graphql_blocks_spec clock schemaStr) as (_ & Hne & Hblock & _).
    unfold graphql_result in Hy. cbn [lr_pages] in Hy.
    destruct (graphql_blocks clock schemaStr) as [| b bs]; [contradiction |].
    simpl length in Hy. simpl Nat.eqb in Hy. cbn [andb] in Hy.
    rewrite Forall_forall in Hblock. apply (Hblock y), list_elem_of_In, Hy. }
  assert (Hpq : page_key p = page_key q).
  { unfold page_key. rewrite (Hu _ _ _ _ Hp), (Hu _ _ _ _ Hq), Htitle. reflexivity. }
  unfold mergePages in Hx.
  destruct (merge_loop_spec (lr_pages (graphql_result clock2 source2 schema2))
              (list_to_set (List.map page_key
                              (lr_pages (graphql_result clock1 source1 schema1))))
              (lr_pages (graphql_result clock1 source1 schema1)))
    as (added & Hloop & _ & _ & Hnew & _).
  rewrite Hloop in Hx. cbn [snd] in Hx.
  apply in_app_or in Hx as [Hx | Hx]; [exact Hx |].
  exfalso. apply list_elem_of_In in Hx. apply (Hnew x Hx).
  rewrite Hkey, <- Hpq. apply elem_of_list_to_set, list_elem_of_In, in_map, Hp.
Qed.

Lemma graphql_merge_same_name_witness :
  In (createPage "t1" "User" ("type User { id: ID }" +:+ lf))
     (lr_pages (graphql_result (fun _ => "t1") "a.graphql" "type User { id: ID }")).
Proof.
  apply (graphql_merge_same_name (fun _ => "t1") (fun _ => "t2")
           "a.graphql" "b.graphql" "type User { id: ID }" "type User { name: String }"
           (createPage "t1" "User" ("type User { id: ID }" +:+ lf))
           (createPage "t2" "User" ("type User { name: String }" +:+ lf))
           (createPage "t1" "User" ("type User { id: ID }" +:+ lf))).
  - vm_compute. left. reflexivity.
  - vm_compute. left. reflexivity.
  - reflexivity.
  - vm_compute. left. reflexivity.
  - reflexivity.
Defined.

(** * The budget of the create command *)



(** * The codebase loader *)

Section Codebase.

Context (lib : PathLib) (clock : nat -> string) (cfg : CodebaseConfig)
        (dirPath : string).

(** A directory is walked by the loop of [walk]. *)
Lemma walk_entry_dir (dir name : string) (entries : option (list FsEntry))
  (st : nat * list Page) :
  walk_entry lib clock cfg dirPath dir (FsDir name entries) st
  = if existsb (JsString.includes
                  (path_relative lib dirPath (path_join lib dir name))) IGNORE
    then st
    else walk lib clock cfg dirPath (path_join lib dir name) entries st.
Proof.
  unfold walk. cbn [walk_entry entry_name].
  destruct (existsb _ IGNORE); [reflexivity |].
  destruct (maxFiles cfg <=? Z.of_nat (fst st))%Z; [reflexivity |].
  destruct entries as [l |]; [| reflexivity].
  change (default [] (Some l)) with l.
  revert st. induction l as [| e rest IH]; intros st; [reflexivity |].
  cbn [walk_entries].
  destruct (maxFiles cfg <=? Z.of_nat (fst st))%Z; [reflexivity |]. apply IH.
Qed.

Lemma walk_entries_sound (dir : string) (l : list FsEntry) (st : nat * list Page) :
  Forall (fun ent => forall dir st,
              (Z.of_nat (fst st) < maxFiles cfg)%Z ->
              walk_sound lib clock cfg dirPath st ->
              walk_sound lib clock cfg dirPath
                (walk_entry lib clock cfg dirPath dir ent st)) l ->
  walk_sound lib clock cfg dirPath st ->
  walk_sound lib clock cfg dirPath (walk_entries lib clock cfg dirPath dir l st).
Proof.
  intros Hall. revert st. induction Hall as [| e rest He _ IH]; intros st Hst.
  - exact Hst.
  - cbn [walk_entries].
    destruct (Z.leb_spec (maxFiles cfg) (Z.of_nat (fst st))) as [Hfull | Hroom];
      [exact Hst |].
    apply IH, He; assumption.
Qed.

(** Every step of the walk keeps the state sound. *)
Lemma walk_entry_sound (ent : FsEntry) :
  forall dir st,
    (Z.of_nat (fst st) < maxFiles cfg)%Z ->
    walk_sound lib clock cfg dirPath st ->
    walk_sound lib clock cfg dirPath (walk_entry lib clock cfg dirPath dir ent st).
Proof.
  induction ent as [name data | name entries IH] using FsEntry_ind;
    intros dir st Hroom Hst.
  - cbn [walk_entry entry_name].
    destruct (existsb _ IGNORE) eqn:Hign; [exact Hst |].
    destruct (existsb (String.eqb (path_extname lib name)) EXTENSIONS); [| exact Hst].
    destruct Hst as (Hcount & Hmax & Hpages). unfold walk_sound. cbn [fst snd].
    split; [rewrite length_app, Hcount; simpl; lia |].
    split; [lia |].
    apply Forall_app. split; [exact Hpages |]. constructor; [| constructor].
    exists (path_join lib dir name), data, (fst st). split; [reflexivity | exact Hign].
  - rewrite walk_entry_dir. destruct (existsb _ IGNORE); [exact Hst |].
    unfold walk.
    destruct (maxFiles cfg <=? Z.of_nat (fst st))%Z; [exact Hst |].
    apply walk_entries_sound; [exact IH | exact Hst].
Qed.

Lemma walk_sound_result (dir : string) (entries : option (list FsEntry)) :
  walk_sound lib clock cfg dirPath
    (walk lib clock cfg dirPath dir entries (0, [])).
Proof.
  assert (Hinit : walk_sound lib clock cfg dirPath (0, [])).
  { unfold walk_sound. cbn [fst snd length]. split; [reflexivity |].
    split; [lia | constructor]. }
  unfold walk. destruct (maxFiles cfg <=? Z.of_nat (fst (0%nat, [])))%Z; [exact Hinit |].
  apply walk_entries_sound; [| exact Hinit].
  apply Forall_forall. intros ent _ dir' st. apply walk_entry_sound.
Qed.

End Codebase.

Lemma loadCodebase_pages (lib : PathLib) (clock : nat -> string)
  (opt_maxFiles opt_maxSize : option jsnum) (dirPath : string)
  (root : option (option (list FsEntry))) (r : LoaderResult) :
  loadCodebase lib clock opt_maxFiles opt_maxSize dirPath root = Returned r ->
  lr_pageCount r = length (lr_pages r) /\
  walk_sound lib clock (codebase_config opt_maxFiles opt_maxSize) dirPath
    (length (lr_pages r), lr_pages r).
Proof.
  unfold loadCodebase. destruct root as [entries |]; [| discriminate].
  pose proof (walk_sound_result lib clock (codebase_config opt_maxFiles opt_maxSize)
                dirPath (path_resolve lib dirPath) entries) as Hs.
  destruct (walk lib clock (codebase_config opt_maxFiles opt_maxSize) dirPath
              (path_resolve lib dirPath) entries (0, [])) as [count pages].
  intros H. inversion H; subst. cbn [lr_pageCount lr_pages].
  split; [reflexivity |].
  destruct Hs as (Hcount & Hmax & Hpages). cbn [fst snd] in *.
  unfold walk_sound. cbn [fst snd]. rewrite <- Hcount.
  split; [reflexivity |]. split; [exact Hmax | exact Hpages].
Qed.

(** X26: the codebase loader never indexes more than [maxFiles] files,
    whatever the tree holds: the count is tested before every entry, in every
    directory.  With a negative [maxFiles] it indexes nothing. *)
Theorem loadCodebase_file_bound (lib : PathLib) (clock : nat -> string)
  (opt_maxFiles opt_maxSize : option jsnum) (dirPath : string)
  (root : option (option (list FsEntry))) (r : LoaderResult) :
  loadCodebase lib clock opt_maxFiles opt_maxSize dirPath root = Returned r ->
  lr_pageCount r = length (lr_pages r) /\
  (Z.of_nat (lr_pageCount r) <= Z.max (num_or opt_maxFiles 100) 0)%Z.
Proof.
  intros Hrun. apply loadCodebase_pages in Hrun as (Hcount & _ & Hmax & _).
  split; [exact Hcount |]. rewrite Hcount. exact Hmax.
Qed.

Lemma loadCodebase_file_bound_witness :
  exists r,
    loadCodebase Tree.lib (fun _ => "now") (Some (Num 1)) None "/repo"
                 (Some (Some Tree.project)) = Returned r /\
    (Z.of_nat (lr_pageCount r) <= 1)%Z.
Proof.
  eexists. split; [vm_compute; reflexivity |].
  eapply (proj2 (loadCodebase_file_bound Tree.lib (fun _ => "now") (Some (Num 1)) None
                   "/repo" (Some (Some Tree.project)) _ _)).
  Unshelve. vm_compute. reflexivity.
Defined.

(** X27: an entry is skipped when its relative path holds an ignored name
    anywhere, as a substring: no page has a title, which is the relative path
    of its file, that holds one of [node_modules], [.git], [dist], [build],
    [__pycache__], [.next] or [vendor]; a file named rebuild.js is not
    indexed. *)
Theorem loadCodebase_ignores_substrings (lib : PathLib) (clock : nat -> string)
  (opt_maxFiles opt_maxSize : option jsnum) (dirPath : string)
  (root : option (option (list FsEntry))) (r : LoaderResult) (p : Page) (i : string) :
  loadCodebase lib clock opt_maxFiles opt_maxSize dirPath root = Returned r ->
  In p (lr_pages r) -> In i IGNORE ->
  JsString.includes (title p) i = false /\
  exists full, url p = "file://" +:+ full /\ title p = path_relative lib dirPath full.
Proof.
  intros Hrun Hp Hi. apply loadCodebase_pages in Hrun as (_ & _ & _ & Hpages).
  cbn [snd] in Hpages. rewrite Forall_forall in Hpages.
  destruct (Hpages p (proj2 (list_elem_of_In _ _) Hp)) as (full & data & count & -> & Hign).
  cbn [title url file_page]. split; [| exists full; split; reflexivity].
  destruct (JsString.includes (path_relative lib dirPath full) i) eqn:Hinc; [| reflexivity].
  assert (Ht : existsb (JsString.includes (path_relative lib dirPath full)) IGNORE = true).
  { apply existsb_exists. exists i. split; assumption. }
  congruence.
Qed.

Lemma loadCodebase_ignores_substrings_witness :
  exists r,
    loadCodebase Tree.lib (fun _ => "now") None None "/repo"
                 (Some (Some Tree.project)) = Returned r /\
    List.map title (lr_pages r) = ["src/main.ts"; "index.js"] /\
    forall p, In p (lr_pages r) -> JsString.includes (title p) "build" = false.
Proof.
  eexists. split; [vm_compute; reflexivity |]. split; [vm_compute; reflexivity |].
  intros p Hp.
  refine (proj1 (loadCodebase_ignores_substrings Tree.lib (fun _ => "now") None None
                   "/repo" (Some (Some Tree.project)) _ p "build" _ Hp _)).
  - vm_compute. reflexivity.
  - vm_compute. tauto.
Defined.

Lemma str_length_app (a b : string) :
  String.length (a +:+ b) = String.length a + String.length b.
Proof.
  induction a as [| c a IH]; [reflexivity |]. rewrite str_app_cons. simpl. rewrite IH.
  reflexivity.
Qed.

Lemma substring_length_le (n : nat) (s : string) :
  String.length (String.substring 0 n s) <= n.
Proof.
  revert n. induction s as [| c s IH]; intros [| n]; simpl; try lia.
  specialize (IH n). lia.
Qed.

Lemma truncate_length (cfg : CodebaseConfig) (data : string) :
  (0 <= maxSize cfg)%Z ->
  (Z.of_nat (String.length (truncate cfg data)) <= maxSize cfg + 16)%Z.
Proof.
  intros Hpos. unfold truncate.
  destruct (Z.ltb_spec (maxSize cfg) (Z.of_nat (String.length data))) as [Hlong | Hshort].
  - rewrite !str_length_app. unfold str_slice0.
    destruct (Z.ltb_spec (maxSize cfg) 0) as [Hneg | _]; [lia |].
    pose proof (substring_length_le
                  (Z.to_nat (Z.min (maxSize cfg) (Z.of_nat (String.length data)))) data).
    change (String.length lf) with 1. change (String.length "... (truncated)") with 15.
    lia.
  - lia.
Qed.

(** X28: a file longer than [maxSize] is cut: the text that is indexed
    between the fences of the content has at most [maxSize + 16] characters
    when [maxSize] is not negative, and the word count of a page is the count
    of that text, the mark of the cut included, not of the content. *)
Theorem loadCodebase_truncates (lib : PathLib) (clock : nat -> string)
  (opt_maxFiles opt_maxSize : option jsnum) (dirPath : string)
  (root : option (option (list FsEntry))) (r : LoaderResult) (p : Page) :
  loadCodebase lib clock opt_maxFiles opt_maxSize dirPath root = Returned r ->
  In p (lr_pages r) ->
  exists body,
    content p = "# " +:+ title p +:+ lf +:+ lf +:+ "```" +:+ lf +:+ body +:+ lf +:+ "```" /\
    wordCount p = length (JsString.split_ws body) /\
    ((0 <= num_or opt_maxSize 50000)%Z ->
     (Z.of_nat (String.length body) <= num_or opt_maxSize 50000 + 16)%Z).
Proof.
  intros Hrun Hp. apply loadCodebase_pages in Hrun as (_ & _ & _ & Hpages).
  cbn [snd] in Hpages. rewrite Forall_forall in Hpages.
  destruct (Hpages p (proj2 (list_elem_of_In _ _) Hp)) as (full & data & count & -> & _).
  exists (truncate (codebase_config opt_maxFiles opt_maxSize) (default EmptyString data)).
  cbn [content title wordCount file_page].
  split; [reflexivity |]. split; [reflexivity |].
  intros Hpos. apply (truncate_length (codebase_config opt_maxFiles opt_maxSize)).
  exact Hpos.
Qed.

Lemma loadCodebase_truncates_witness :
  exists r p body,
    loadCodebase Tree.lib (fun _ => "now") (Some (Num 1)) (Some (Num 3)) "/repo"
                 (Some (Some Tree.project)) = Returned r /\
    lr_pages r = [p] /\
    content p = "# " +:+ title p +:+ lf +:+ lf +:+ "```" +:+ lf +:+ body +:+ lf +:+ "```" /\
    wordCount p = length (JsString.split_ws body).
Proof.
  eexists. eexists.
  assert (Hrun : loadCodebase Tree.lib (fun _ => "now") (Some (Num 1)) (Some (Num 3))
                   "/repo" (Some (Some Tree.project))
                 = Returned
                     {| lr_pageCount := 1;
                        lr_pages :=
                          [file_page (fun _ => "now")
                             (codebase_config (Some (Num 1)) (Some (Num 3)))
                             "/repo/src/main.ts" "src/main.ts" (Some "let x = 1") 0];
                        lr_scrapedAt := "now";
                        lr_baseUrl := "/repo";
                        lr_source := "codebase" |}) by (vm_compute; reflexivity).
  destruct (loadCodebase_truncates Tree.lib (fun _ => "now") (Some (Num 1)) (Some (Num 3))
              "/repo" (Some (Some Tree.project)) _ _ Hrun (or_introl eq_refl))
    as (body & Hc & Hw & _).
  exists body. split; [exact Hrun |]. split; [reflexivity |]. split; [exact Hc | exact Hw].
Defined.

Lemma mergePages_appends_witness :
  NoDup (List.map page_key
           (mergePages
              [mkPage "https://example.com/a" "A" "old text" 2 "2024-01-01"]
              [mkPage "https://example.com/a" "A" "new text" 2 "2024-02-01";
               mkPage "https://example.com/b" "B" "more" 1 "2024-02-01"])).
Proof.
  destruct (mergePages_appends
              [mkPage "https://example.com/a" "A" "old text" 2 "2024-01-01"]
              [mkPage "https://example.com/a" "A" "new text" 2 "2024-02-01";
               mkPage "https://example.com/b" "B" "more" 1 "2024-02-01"])
    as (added & _ & _ & _ & _ & Hkeep).
  apply Hkeep. apply NoDup_cons. split; [| constructor].
  intros H. inversion H.
Defined.
